(** * The prow [lgtm] plugin: label toggling on "/lgtm" comments and reviews

    A shallow embedding of [prow/plugins/lgtm/lgtm.go] (the handler with
    positional arguments) and of its sibling revision that bundles the same
    arguments into a [state] struct, followed by the properties of both.

    - Go strings are byte strings: [string] of the standard library.
    - Go [int] is modelled by [Z]; the handlers only pass it around.
    - Go [error] is [option string]: [None] is [nil].
    - [IsMember] returns [(bool, error)] and the handler reads the boolean
      only when the error is nil: its answer is a [result bool].
      [GetIssueLabels] returns [([]Label, error)] and the handler ranges
      over the labels whatever the error is: its answer is the pair.
    - The GitHub client is the only effect: handlers are programs over the
      six calls of the [githubClient] interface, run against any client.
      Logging through [logrus] never reaches the client and is left out. *)

From Stdlib Require Import String Ascii List ZArith Bool Arith Lia.
Import ListNotations.

Local Open Scope string_scope.
Local Open Scope list_scope.

(** ** Values of package [github] used by the plugin *)

Module github.

(** Modelled from the spec: [github.User] is declared outside the plugin;
    the "actor identity" the handlers read is its login. *)
Record User := { Login : string }.

(** Modelled from the spec: [github.Repo], the "repository identifier
    (owner + name)". *)
Record Repo := { Owner : User; Name : string }.

(** Modelled from the spec: [github.Label], "a named tag attached to an
    issue". *)
Record Label := { LabelName : string }.

(** Modelled from the spec: the action of a generic comment event for
    "a new comment was created". *)
Definition GenericCommentActionCreated : string := "created".

(** Modelled from the spec: the fields of [github.GenericCommentEvent]
    that [handleGenericComment] reads. *)
Record GenericCommentEvent := {
  IsPR : bool;
  Action : string;
  Body : string;
  HTMLURL : string;
  Number : Z;
  EventRepo : Repo;
  EventUser : User;
  IssueAuthor : User;
  Assignees : list User;
  IssueState : string
}.

(** Modelled from the spec: the fields of [github.Review],
    [github.PullRequest] and [github.ReviewEvent] that
    [handlePullRequestReview] reads. *)
Record Review := {
  ReviewUser : User;
  ReviewBody : string;
  ReviewState : string;
  ReviewHTMLURL : string
}.

Record PullRequest := {
  PRNumber : Z;
  PRUser : User;
  PRAssignees : list User
}.

Record ReviewEvent := {
  RevPullRequest : PullRequest;
  RevRepo : Repo;
  RevReview : Review
}.

End github.

(** ** Errors and results *)

Definition error := option string.

Inductive result (A : Type) : Type :=
| Ok (a : A)
| Err (e : string).

Arguments Ok {A} a.
Arguments Err {A} e.

(** ** Package [regexp], as far as the two patterns of the plugin need it

    Go matches a pattern against the UTF-8 text of a string.  Every literal
    of the two patterns is ASCII, so the matcher works on bytes; the one
    place where a non-ASCII rune can match is case folding, where Go's
    simple folding puts U+017F with [s] and U+212A with [k]: their UTF-8
    encodings are the byte sequences [fold_extra] lists. *)

Module regexp.

Inductive regex : Type :=
| Empty                         (* matches the empty string *)
| Byte (b : ascii)              (* one byte, literally *)
| Space                         (* \s, that is [\t\n\f\r ] *)
| Seq (r1 r2 : regex)
| Alt (r1 r2 : regex)
| Star (r : regex)
| BeginLine                     (* ^ under (?m) *)
| EndLine.                      (* $ under (?m) *)

Definition newline : ascii := "010"%char.

Definition is_space (c : ascii) : bool :=
  match nat_of_ascii c with
  | 9 | 10 | 12 | 13 | 32 => true
  | _ => false
  end.

(** ^ under (?m): at the beginning of the text or just after a newline. *)
Definition at_begin_line (prev : option ascii) : bool :=
  match prev with
  | None => true
  | Some c => Ascii.eqb c newline
  end.

(** $ under (?m): at the end of the text or just before a newline. *)
Definition at_end_line (s : list ascii) : bool :=
  match s with
  | [] => true
  | c :: _ => Ascii.eqb c newline
  end.

(** Star: zero or more rounds of [step]; a round that consumes nothing
    adds no match, so [fuel] = the length of the text is enough. *)
Fixpoint star_iter
    (step : option ascii -> list ascii ->
            (option ascii -> list ascii -> bool) -> bool)
    (fuel : nat) (prev : option ascii) (s : list ascii)
    (k : option ascii -> list ascii -> bool) : bool :=
  k prev s ||
  match fuel with
  | O => false
  | S fuel' =>
      step prev s
        (fun p' s' =>
           Nat.ltb (List.length s') (List.length s) && star_iter step fuel' p' s' k)
  end.

(** [rmatch r prev s k]: some prefix of [s] matches [r] and the rest
    satisfies [k]; [prev] is the byte before [s] in the text. *)
Fixpoint rmatch (r : regex) (prev : option ascii) (s : list ascii)
    (k : option ascii -> list ascii -> bool) {struct r} : bool :=
  match r with
  | Empty => k prev s
  | Byte b =>
      match s with
      | c :: s' => Ascii.eqb c b && k (Some c) s'
      | [] => false
      end
  | Space =>
      match s with
      | c :: s' => is_space c && k (Some c) s'
      | [] => false
      end
  | Seq r1 r2 => rmatch r1 prev s (fun p' s' => rmatch r2 p' s' k)
  | Alt r1 r2 => rmatch r1 prev s k || rmatch r2 prev s k
  | Star r' => star_iter (rmatch r') (List.length s) prev s k
  | BeginLine => at_begin_line prev && k prev s
  | EndLine => at_end_line s && k prev s
  end.

(** An unanchored search: a match may start at any position. *)
Fixpoint search (r : regex) (prev : option ascii) (s : list ascii) : bool :=
  rmatch r prev s (fun _ _ => true) ||
  match s with
  | c :: s' => search r (Some c) s'
  | [] => false
  end.

(** The method [MatchString] of a compiled pattern: does the string
    contain any match? *)
Definition MatchString (r : regex) (s : string) : bool :=
  search r None (list_ascii_of_string s).

(** *** Building the patterns: literals under (?i) *)

Definition is_upper (c : ascii) : bool :=
  Nat.leb 65 (nat_of_ascii c) && Nat.leb (nat_of_ascii c) 90.

Definition is_lower (c : ascii) : bool :=
  Nat.leb 97 (nat_of_ascii c) && Nat.leb (nat_of_ascii c) 122.

Definition to_lower (c : ascii) : ascii :=
  if is_upper c then ascii_of_nat (nat_of_ascii c + 32) else c.

Definition to_upper (c : ascii) : ascii :=
  if is_lower c then ascii_of_nat (nat_of_ascii c - 32) else c.

(** The runes outside ASCII that fold to an ASCII letter, in UTF-8. *)
Definition fold_extra (c : ascii) : option (list ascii) :=
  if Ascii.eqb (to_lower c) "s" then
    Some [ascii_of_nat 197; ascii_of_nat 191]                    (* U+017F *)
  else if Ascii.eqb (to_lower c) "k" then
    Some [ascii_of_nat 226; ascii_of_nat 132; ascii_of_nat 170]  (* U+212A *)
  else None.

Fixpoint bytes (l : list ascii) : regex :=
  match l with
  | [] => Empty
  | b :: l' => Seq (Byte b) (bytes l')
  end.

(** One literal under (?i): the byte in either case, or a rune that
    folds to it. *)
Definition lit_fold (c : ascii) : regex :=
  if is_upper c || is_lower c then
    match fold_extra c with
    | Some enc => Alt (Byte (to_lower c)) (Alt (Byte (to_upper c)) (bytes enc))
    | None => Alt (Byte (to_lower c)) (Byte (to_upper c))
    end
  else Byte c.

Fixpoint lits_fold (l : list ascii) : regex :=
  match l with
  | [] => Empty
  | c :: l' => Seq (lit_fold c) (lits_fold l')
  end.

Definition literal_fold (s : string) : regex :=
  lits_fold (list_ascii_of_string s).

(** (?: r )? *)
Definition Opt (r : regex) : regex := Alt r Empty.

End regexp.

(** ** The [githubClient] interface and programs over it *)

(** The six methods of the interface, with their arguments. *)
Inductive call : Type :=
| IsMember (owner login : string)
| AddLabel (owner repo : string) (number : Z) (label : string)
| AssignIssue (owner repo : string) (number : Z) (assignees : list string)
| CreateComment (owner repo : string) (number : Z) (comment : string)
| RemoveLabel (owner repo : string) (number : Z) (label : string)
| GetIssueLabels (org repo : string) (number : Z).

(** What each method returns. *)
Definition reply (c : call) : Type :=
  match c with
  | IsMember _ _ => result bool
  | AddLabel _ _ _ _ => error
  | AssignIssue _ _ _ _ => error
  | CreateComment _ _ _ _ => error
  | RemoveLabel _ _ _ _ => error
  | GetIssueLabels _ _ _ => (list github.Label * error)%type
  end.

(** An implementation of the interface: any state [W] of the service, and
    for every call an answer and the state after it. *)
Definition githubClient (W : Type) : Type := forall c : call, W -> reply c * W.

(** A handler is a program: it returns, or makes a call and goes on with
    the answer. *)
Inductive prog (A : Type) : Type :=
| Ret (a : A)
| Do (c : call) (k : reply c -> prog A).

Arguments Ret {A} a.
Arguments Do {A} c k.

Fixpoint bind {A B : Type} (p : prog A) (f : A -> prog B) : prog B :=
  match p with
  | Ret a => f a
  | Do c k => Do c (fun r => bind (k r) f)
  end.

(** [gc c]: one call on the client, as in [gc.AddLabel(...)]. *)
Definition gc (c : call) : prog (reply c) := Do c (fun r => Ret r).

Notation "x <- p ;; q" := (bind p (fun x => q))
  (at level 61, p at next level, right associativity).

(** A call as it happened: the method, its arguments and its answer. *)
Inductive event : Type :=
| EvIsMember (owner login : string) (r : result bool)
| EvAddLabel (owner repo : string) (number : Z) (label : string) (r : error)
| EvAssignIssue (owner repo : string) (number : Z) (assignees : list string) (r : error)
| EvCreateComment (owner repo : string) (number : Z) (comment : string) (r : error)
| EvRemoveLabel (owner repo : string) (number : Z) (label : string) (r : error)
| EvGetIssueLabels (org repo : string) (number : Z)
    (r : list github.Label * error).

Definition observe (c : call) : reply c -> event :=
  match c with
  | IsMember o l => EvIsMember o l
  | AddLabel o r n l => EvAddLabel o r n l
  | AssignIssue o r n a => EvAssignIssue o r n a
  | CreateComment o r n t => EvCreateComment o r n t
  | RemoveLabel o r n l => EvRemoveLabel o r n l
  | GetIssueLabels o r n => EvGetIssueLabels o r n
  end.

(** Running a program against a client: the calls in order with their
    answers, the value returned, and the state of the service at the end. *)
Fixpoint run {W A : Type} (client : githubClient W) (w : W) (p : prog A)
  : list event * A * W :=
  match p with
  | Ret a => ([], a, w)
  | Do c k =>
      let (r, w1) := client c w in
      let '(tr, a, w2) := run client w1 (k r) in
      (observe c r :: tr, a, w2)
  end.

Definition trace {W A : Type} (client : githubClient W) (w : W) (p : prog A)
  : list event := fst (fst (run client w p)).

Definition returned {W A : Type} (client : githubClient W) (w : W) (p : prog A)
  : A := snd (fst (run client w p)).

(** Kinds of calls in a trace. *)
Definition isCreateComment (e : event) : bool :=
  match e with EvCreateComment _ _ _ _ _ => true | _ => false end.

Definition isAddLabel (e : event) : bool :=
  match e with EvAddLabel _ _ _ _ _ => true | _ => false end.

Definition isRemoveLabel (e : event) : bool :=
  match e with EvRemoveLabel _ _ _ _ _ => true | _ => false end.

Definition isAssignIssue (e : event) : bool :=
  match e with EvAssignIssue _ _ _ _ _ => true | _ => false end.

Definition isGetIssueLabels (e : event) : bool :=
  match e with EvGetIssueLabels _ _ _ _ => true | _ => false end.

Definition calls (kind : event -> bool) (tr : list event) : nat :=
  List.length (filter kind tr).

(** ** [prow/plugins/lgtm/lgtm.go]: the handler with positional arguments *)

Module lgtm.
Import github regexp.

Section Plugin.

(** [plugins.FormatResponseRaw(body, bodyURL, login, reply)] lives in
    package [plugins]; the handlers only pass its result on. *)
Variable FormatResponseRaw : string -> string -> string -> string -> string.

Definition lgtmLabel : string := "lgtm".

(** [(?mi)^/lgtm(?: no-issue)?\s*$] *)
Definition lgtmRe : regex :=
  Seq BeginLine
    (Seq (literal_fold "/lgtm")
       (Seq (Opt (literal_fold " no-issue"))
          (Seq (Star Space) EndLine))).

(** [(?mi)^/lgtm cancel\s*$] *)
Definition lgtmCancelRe : regex :=
  Seq BeginLine
    (Seq (literal_fold "/lgtm cancel")
       (Seq (Star Space) EndLine)).

Definition handle (wantLGTM : bool) (author issueAuthor : string)
    (repo : Repo) (assignees : list User) (number : Z)
    (body htmlURL : string) : prog error :=
  let org := Login (Owner repo) in
  let repoName := Name repo in
  (* Determine if reviewer is already assigned *)
  let isAssignee :=
    existsb (fun assignee => String.eqb (Login assignee) author) assignees in
  (* Only add the label if it doesn't have it, and vice versa. *)
  let mutate : prog error :=
    r <- gc (GetIssueLabels org repoName number) ;;
    (* the error is only logged *)
    let labels := fst r in
    let hasLGTM :=
      existsb (fun candidate => String.eqb (LabelName candidate) lgtmLabel)
              labels in
    if hasLGTM && negb wantLGTM then
      gc (RemoveLabel org repoName number lgtmLabel)
    else if negb hasLGTM && wantLGTM then
      gc (AddLabel org repoName number lgtmLabel)
    else Ret None
  in
  (* Add reviewers as assignee *)
  if negb isAssignee then
    err <- gc (AssignIssue org repoName number [author]) ;;
    match err with
    | Some _ =>
        m <- gc (IsMember org author) ;;
        let msg :=
          match m with
          | Ok ok =>
              if negb ok
              then ("only " ++ org ++ " org members may be assigned issues")%string
              else "assigning you to the PR failed"
          | Err _ => "assigning you to the PR failed"
          end in
        let resp :=
          ("changing LGTM is restricted to assignees, and " ++ msg ++ ".")%string in
        gc (CreateComment org repoName number
              (FormatResponseRaw body htmlURL author resp))
    | None => mutate
    end
  else mutate.

(** Lines 85-92: the intent of a comment, [None] where the handler
    returns at once. *)
Definition commentWantLGTM (body : string) : option bool :=
  if MatchString lgtmRe body then Some true
  else if MatchString lgtmCancelRe body then Some false
  else None.

Definition handleGenericComment (e : GenericCommentEvent) : prog error :=
  let author := Login (EventUser e) in
  let issueAuthor := Login (IssueAuthor e) in
  let repo := EventRepo e in
  let assignees := Assignees e in
  let number := Number e in
  let body := Body e in
  let htmlURL := HTMLURL e in
  (* Only consider open PRs and new comments. *)
  if negb (IsPR e)
     || negb (String.eqb (IssueState e) "open")
     || negb (String.eqb (Action e) GenericCommentActionCreated)
  then Ret None
  else
    match commentWantLGTM body with
    | None => Ret None
    | Some wantLGTM =>
        (* Author cannot LGTM own PR *)
        let isAuthor := String.eqb author issueAuthor in
        if isAuthor && wantLGTM then
          let resp := "you cannot LGTM your own PR." in
          gc (CreateComment (Login (Owner repo)) (Name repo) number
                (FormatResponseRaw body htmlURL author resp))
        else
          handle wantLGTM author issueAuthor repo assignees number
                 body htmlURL
    end.

(** Lines 116-123: the intent of a review. *)
Definition reviewWantLGTM (state : string) : option bool :=
  if String.eqb state "approve" then Some true
  else if String.eqb state "changes_requested" then Some false
  else None.

Definition handlePullRequestReview (e : ReviewEvent) : prog error :=
  let author := Login (ReviewUser (RevReview e)) in
  let issueAuthor := Login (PRUser (RevPullRequest e)) in
  let repo := RevRepo e in
  let assignees := PRAssignees (RevPullRequest e) in
  let number := PRNumber (RevPullRequest e) in
  let body := ReviewBody (RevReview e) in
  let htmlURL := ReviewHTMLURL (RevReview e) in
  match reviewWantLGTM (ReviewState (RevReview e)) with
  | None => Ret None
  | Some wantLGTM =>
      handle wantLGTM author issueAuthor repo assignees number body htmlURL
  end.

End Plugin.

End lgtm.

(** ** The sibling revision: the same handler over a [state] struct *)

Module lgtm_struct.
Import github regexp.

Record state := {
  author : string;
  issueAuthor : string;
  repo : Repo;
  assignees : list User;
  number : Z;
  body : string;
  htmlURL : string
}.

Section Plugin.

Variable FormatResponseRaw : string -> string -> string -> string -> string.

Definition lgtmLabel : string := "lgtm".

(** [(?mi)^/lgtm(?: no-issue)?\s*$] *)
Definition lgtmRe : regex :=
  Seq BeginLine
    (Seq (literal_fold "/lgtm")
       (Seq (Opt (literal_fold " no-issue"))
          (Seq (Star Space) EndLine))).

(** [(?mi)^/lgtm cancel\s*$] *)
Definition lgtmCancelRe : regex :=
  Seq BeginLine
    (Seq (literal_fold "/lgtm cancel")
       (Seq (Star Space) EndLine)).

Definition handle (wantLGTM : bool) (pr : state) : prog error :=
  let org := Login (Owner (repo pr)) in
  let repoName := Name (repo pr) in
  (* Determine if reviewer is already assigned *)
  let isAssignee :=
    existsb (fun assignee => String.eqb (Login assignee) (author pr))
            (assignees pr) in
  (* Only add the label if it doesn't have it, and vice versa. *)
  let mutate : prog error :=
    r <- gc (GetIssueLabels org repoName (number pr)) ;;
    (* the error is only logged *)
    let labels := fst r in
    let hasLGTM :=
      existsb (fun candidate => String.eqb (LabelName candidate) lgtmLabel)
              labels in
    if hasLGTM && negb wantLGTM then
      gc (RemoveLabel org repoName (number pr) lgtmLabel)
    else if negb hasLGTM && wantLGTM then
      gc (AddLabel org repoName (number pr) lgtmLabel)
    else Ret None
  in
  (* Add reviewers as assignee *)
  if negb isAssignee then
    err <- gc (AssignIssue org repoName (number pr) [author pr]) ;;
    match err with
    | Some _ =>
        m <- gc (IsMember org (author pr)) ;;
        let msg :=
          match m with
          | Ok ok =>
              if negb ok
              then ("only " ++ org ++ " org members may be assigned issues")%string
              else "assigning you to the PR failed"
          | Err _ => "assigning you to the PR failed"
          end in
        let resp :=
          ("changing LGTM is restricted to assignees, and " ++ msg ++ ".")%string in
        gc (CreateComment org repoName (number pr)
              (FormatResponseRaw (body pr) (htmlURL pr) (author pr) resp))
    | None => mutate
    end
  else mutate.

Definition commentWantLGTM (body : string) : option bool :=
  if MatchString lgtmRe body then Some true
  else if MatchString lgtmCancelRe body then Some false
  else None.

Definition handleGenericComment (e : GenericCommentEvent) : prog error :=
  let author := Login (EventUser e) in
  let issueAuthor := Login (IssueAuthor e) in
  let repo := EventRepo e in
  let assignees := Assignees e in
  let number := Number e in
  let body := Body e in
  let htmlURL := HTMLURL e in
  (* Only consider open PRs and new comments. *)
  if negb (IsPR e)
     || negb (String.eqb (IssueState e) "open")
     || negb (String.eqb (Action e) GenericCommentActionCreated)
  then Ret None
  else
    match commentWantLGTM body with
    | None => Ret None
    | Some wantLGTM =>
        (* Author cannot LGTM own PR *)
        let isAuthor := String.eqb author issueAuthor in
        if isAuthor && wantLGTM then
          let resp := "you cannot LGTM your own PR." in
          gc (CreateComment (Login (Owner repo)) (Name repo) number
                (FormatResponseRaw body htmlURL author resp))
        else
          handle wantLGTM
            (Build_state author issueAuthor repo assignees number
                         body htmlURL)
    end.

Definition reviewWantLGTM (state : string) : option bool :=
  if String.eqb state "approve" then Some true
  else if String.eqb state "changes_requested" then Some false
  else None.

Definition handlePullRequestReview (e : ReviewEvent) : prog error :=
  match reviewWantLGTM (ReviewState (RevReview e)) with
  | None => Ret None
  | Some wantLGTM =>
      handle wantLGTM
        {| author := Login (ReviewUser (RevReview e));
           issueAuthor := Login (PRUser (RevPullRequest e));
           repo := RevRepo e;
           assignees := PRAssignees (RevPullRequest e);
           number := PRNumber (RevPullRequest e);
           body := ReviewBody (RevReview e);
           htmlURL := ReviewHTMLURL (RevReview e) |}
  end.

End Plugin.

End lgtm_struct.

(** ** The specification's reading of the two commands

    The specification describes the patterns by lines: a command is a line
    of the body that consists of the command text, in any letter case,
    followed by nothing but whitespace.  These definitions follow those
    words; the patterns themselves are [lgtmRe] and [lgtmCancelRe] above. *)

Module spec.
Import regexp.

(** The lines of a text: the pieces between newlines. *)
Fixpoint lines (s : list ascii) : list (list ascii) :=
  match s with
  | [] => [[]]
  | c :: s' =>
      if Ascii.eqb c newline then [] :: lines s'
      else match lines s' with
           | l :: ls => (c :: l) :: ls
           | [] => [[c]]
           end
  end.

Definition body_lines (body : string) : list (list ascii) :=
  lines (list_ascii_of_string body).

(** [c] is the letter [a] in either case (or [a] itself when [a] is not a
    letter). *)
Definition eqb_nocase (a c : ascii) : bool :=
  Ascii.eqb c (to_lower a) || Ascii.eqb c (to_upper a).

(** What is left of [s] after the text [p], compared without case. *)
Fixpoint strip_nocase (p s : list ascii) : option (list ascii) :=
  match p, s with
  | [], _ => Some s
  | a :: p', c :: s' => if eqb_nocase a c then strip_nocase p' s' else None
  | _ :: _, [] => None
  end.

(** The line is [cmd], then whitespace only. *)
Definition command_line (cmd : string) (l : list ascii) : bool :=
  match strip_nocase (list_ascii_of_string cmd) l with
  | Some rest => forallb is_space rest
  | None => false
  end.

(** A line consisting solely of [/lgtm] or [/lgtm no-issue]. *)
Definition lgtm_line (l : list ascii) : bool :=
  command_line "/lgtm" l || command_line "/lgtm no-issue" l.

(** A line consisting solely of [/lgtm cancel]. *)
Definition cancel_line (l : list ascii) : bool :=
  command_line "/lgtm cancel" l.

(** A byte of the ASCII range. *)
Definition is_ascii (c : ascii) : bool := Nat.ltb (nat_of_ascii c) 128.

(** The body is plain ASCII text. *)
Definition ascii_body (body : string) : bool :=
  forallb is_ascii (list_ascii_of_string body).

(** "hasLabel = label named lgtm present in that set": the set is the
    list the query returned, with or without an error beside it. *)
Definition hasLabel (r : list github.Label * error) : bool :=
  existsb (fun l => String.eqb (github.LabelName l) "lgtm") (fst r).

(** The message chosen after a failed assignment: the organization is
    named when the membership query succeeds and reports "not a member";
    the generic message is used when the query fails or the user is a
    member. *)
Definition assignFailureMessage (org : string) (m : result bool) : string :=
  match m with
  | Ok false => ("only " ++ org ++ " org members may be assigned issues")%string
  | Ok true => "assigning you to the PR failed"
  | Err _ => "assigning you to the PR failed"
  end.

(** The reply posted after a failed assignment. *)
Definition restrictedReply (msg : string) : string :=
  ("changing LGTM is restricted to assignees, and " ++ msg ++ ".")%string.

End spec.

(** ** A test double of the client, and sample events

    In the style of the fake client of the plugin's tests: the service keeps
    the labels of the one issue, the members of the organization and the
    comments posted; only members can be assigned. *)

Module fake.
Import github.

Record service := {
  labels : list Label;
  members : list string;
  assigned : list string;
  comments : list string;
  labelsDown : bool;      (* GetIssueLabels fails *)
  membersDown : bool      (* IsMember fails *)
}.

Definition isMember (w : service) (login : string) : bool :=
  existsb (String.eqb login) (members w).

Definition client : githubClient service :=
  fun c =>
    match c as c0 return service -> reply c0 * service with
    | IsMember _ login => fun w =>
        (if membersDown w then Err "502 Bad Gateway"
         else Ok (isMember w login), w)
    | AddLabel _ _ _ label => fun w =>
        (None,
         {| labels := {| LabelName := label |} :: labels w;
            members := members w; assigned := assigned w;
            comments := comments w;
            labelsDown := labelsDown w; membersDown := membersDown w |})
    | AssignIssue _ _ _ logins => fun w =>
        if forallb (isMember w) logins then
          (None,
           {| labels := labels w; members := members w;
              assigned := logins ++ assigned w; comments := comments w;
              labelsDown := labelsDown w; membersDown := membersDown w |})
        else (Some "failed to assign", w)
    | CreateComment _ _ _ text => fun w =>
        (None,
         {| labels := labels w; members := members w;
            assigned := assigned w; comments := text :: comments w;
            labelsDown := labelsDown w; membersDown := membersDown w |})
    | RemoveLabel _ _ _ label => fun w =>
        (None,
         {| labels :=
              filter (fun l => negb (String.eqb (LabelName l) label)) (labels w);
            members := members w; assigned := assigned w;
            comments := comments w;
            labelsDown := labelsDown w; membersDown := membersDown w |})
    | GetIssueLabels _ _ _ => fun w =>
        (if labelsDown w then ([], Some "502 Bad Gateway")
         else (labels w, None), w)
    end.

(** The same service behind a client whose failed label query hands back
    the labels it has read together with the error. *)
Definition partialClient : githubClient service :=
  fun c =>
    match c as c0 return service -> reply c0 * service with
    | IsMember o l => client (IsMember o l)
    | AddLabel o r n l => client (AddLabel o r n l)
    | AssignIssue o r n a => client (AssignIssue o r n a)
    | CreateComment o r n t => client (CreateComment o r n t)
    | RemoveLabel o r n l => client (RemoveLabel o r n l)
    | GetIssueLabels _ _ _ => fun w =>
        ((labels w, if labelsDown w then Some "502 Bad Gateway" else None), w)
    end.

(** A stand-in for [plugins.FormatResponseRaw]: address the user, then
    the reply. *)
Definition formatResponse (body bodyURL login reply : string) : string :=
  ("@" ++ login ++ ": " ++ reply)%string.

Definition kubernetes : Repo :=
  {| Owner := {| Login := "kubernetes" |}; Name := "test-infra" |}.

Definition alice : User := {| Login := "alice" |}.
Definition bob : User := {| Login := "bob" |}.

Definition mallory : User := {| Login := "mallory" |}.

Definition nl : string := String regexp.newline EmptyString.

(** What [handle] gets for a request of [user] on the pull request of
    [alice] with [bob] assigned. *)
Definition request (user : User) (text : string) : lgtm_struct.state :=
  {| lgtm_struct.author := Login user;
     lgtm_struct.issueAuthor := "alice";
     lgtm_struct.repo := kubernetes;
     lgtm_struct.assignees := [bob];
     lgtm_struct.number := 5%Z;
     lgtm_struct.body := text;
     lgtm_struct.htmlURL :=
       "https://github.com/kubernetes/test-infra/pull/5#c1" |}.

(** A new comment by [user] on an open pull request of [alice] with
    [bob] assigned. *)
Definition comment (user : User) (text : string) : GenericCommentEvent :=
  {| IsPR := true; Action := GenericCommentActionCreated; Body := text;
     HTMLURL := "https://github.com/kubernetes/test-infra/pull/5#c1";
     Number := 5%Z; EventRepo := kubernetes; EventUser := user;
     IssueAuthor := alice; Assignees := [bob]; IssueState := "open" |}.

(** A review by [user] of the same pull request. *)
Definition review (user : User) (st : string) : ReviewEvent :=
  {| RevPullRequest :=
       {| PRNumber := 5%Z; PRUser := alice; PRAssignees := [bob] |};
     RevRepo := kubernetes;
     RevReview :=
       {| ReviewUser := user; ReviewBody := "looks good";
          ReviewState := st;
          ReviewHTMLURL := "https://github.com/kubernetes/test-infra/pull/5#r1" |} |}.

(** The service with everything up, [alice] and [bob] in the organization
    and no label on the issue. *)
Definition fresh : service :=
  {| labels := []; members := ["alice"; "bob"]; assigned := ["bob"];
     comments := []; labelsDown := false; membersDown := false |}.

Definition labelled : service :=
  {| labels := [{| LabelName := "lgtm" |}]; members := ["alice"; "bob"];
     assigned := ["bob"]; comments := [];
     labelsDown := false; membersDown := false |}.

(** The label is on the issue but the label query is failing. *)
Definition labelledDown : service :=
  {| labels := [{| LabelName := "lgtm" |}]; members := ["alice"; "bob"];
     assigned := ["bob"]; comments := [];
     labelsDown := true; membersDown := false |}.

Definition membersDownService : service :=
  {| labels := []; members := ["alice"; "bob"]; assigned := ["bob"];
     comments := []; labelsDown := false; membersDown := true |}.

End fake.

(** ** Both revisions, side by side

    Every property below is stated for the two revisions of a function at
    the same arguments. *)

Module both.
Import github.

Definition handle (F : string -> string -> string -> string -> string)
    (wantLGTM : bool) (pr : lgtm_struct.state) : list (prog error) :=
  [ lgtm.handle F wantLGTM
      (lgtm_struct.author pr) (lgtm_struct.issueAuthor pr)
      (lgtm_struct.repo pr) (lgtm_struct.assignees pr)
      (lgtm_struct.number pr) (lgtm_struct.body pr)
      (lgtm_struct.htmlURL pr);
    lgtm_struct.handle F wantLGTM pr ].

Definition handleGenericComment
    (F : string -> string -> string -> string -> string)
    (e : GenericCommentEvent) : list (prog error) :=
  [ lgtm.handleGenericComment F e; lgtm_struct.handleGenericComment F e ].

Definition handlePullRequestReview
    (F : string -> string -> string -> string -> string)
    (e : ReviewEvent) : list (prog error) :=
  [ lgtm.handlePullRequestReview F e;
    lgtm_struct.handlePullRequestReview F e ].

End both.

(** ** Observations on runs

    What one can ask of a trace beyond the kinds of its calls, and a
    service that honours the label calls. *)

Module obs.
Import github.

Definition isIsMember (e : event) : bool :=
  match e with EvIsMember _ _ _ => true | _ => false end.

(** An AssignIssue call that came back with an error. *)
Definition isFailedAssign (e : event) : bool :=
  match e with EvAssignIssue _ _ _ _ (Some _) => true | _ => false end.

(** The call is about the issue [org/repoName#number] and the user
    [author]: the membership asked is that of [author] in [org], the only
    user assigned is [author], the only label added or removed is "lgtm". *)
Definition addresses (org repoName : string) (number : Z) (author : string)
    (e : event) : bool :=
  match e with
  | EvIsMember o l _ => String.eqb o org && String.eqb l author
  | EvAddLabel o r n l _ =>
      String.eqb o org && String.eqb r repoName && Z.eqb n number
      && String.eqb l "lgtm"
  | EvAssignIssue o r n a _ =>
      String.eqb o org && String.eqb r repoName && Z.eqb n number
      && match a with
         | [login] => String.eqb login author
         | _ => false
         end
  | EvCreateComment o r n _ _ =>
      String.eqb o org && String.eqb r repoName && Z.eqb n number
  | EvRemoveLabel o r n l _ =>
      String.eqb o org && String.eqb r repoName && Z.eqb n number
      && String.eqb l "lgtm"
  | EvGetIssueLabels o r n _ =>
      String.eqb o org && String.eqb r repoName && Z.eqb n number
  end.

(** The error of a call that writes (a comment, a label added or removed);
    nil for the other calls. *)
Definition writeError (e : event) : error :=
  match e with
  | EvCreateComment _ _ _ _ r => r
  | EvAddLabel _ _ _ _ r => r
  | EvRemoveLabel _ _ _ _ r => r
  | _ => None
  end.

(** The error of the last call of a trace, if that call writes. *)
Definition lastWriteError (tr : list event) : error :=
  match rev tr with
  | e :: _ => writeError e
  | [] => None
  end.

(** A line that begins with a slash. *)
Definition slash_line (l : list ascii) : bool :=
  match l with
  | c :: _ => Ascii.eqb c "/"
  | [] => false
  end.

(** A service that honours the label calls of one issue: [labelsOf] reads
    the labels off its state; the query answers with them and changes
    nothing; adding "lgtm" succeeds and leaves the label on; removing it
    succeeds and leaves it off; assigning does not touch the labels. *)
Record LabelStore {W : Type} (client : githubClient W)
    (labelsOf : W -> list Label) (org repoName : string) (number : Z)
  : Prop := {
  query_reads : forall w,
    client (GetIssueLabels org repoName number) w = ((labelsOf w, None), w);
  add_sets : forall w,
    exists w', client (AddLabel org repoName number "lgtm") w = (None, w') /\
               spec.hasLabel (labelsOf w', None) = true;
  remove_clears : forall w,
    exists w', client (RemoveLabel org repoName number "lgtm") w = (None, w') /\
               spec.hasLabel (labelsOf w', None) = false;
  assign_keeps : forall w logins,
    labelsOf (snd (client (AssignIssue org repoName number logins) w))
    = labelsOf w
}.

(** The smallest such service: its state is the list of labels of the
    issue; every call succeeds and every user is a member. *)
Definition labelsOnly : githubClient (list Label) :=
  fun c =>
    match c as c0 return list Label -> reply c0 * list Label with
    | IsMember _ _ => fun w => (Ok true, w)
    | AddLabel _ _ _ label => fun w => (None, {| LabelName := label |} :: w)
    | AssignIssue _ _ _ _ => fun w => (None, w)
    | CreateComment _ _ _ _ => fun w => (None, w)
    | RemoveLabel _ _ _ label => fun w =>
        (None, filter (fun l => negb (String.eqb (LabelName l) label)) w)
    | GetIssueLabels _ _ _ => fun w => ((w, None), w)
    end.

End obs.

(** * Properties *)

Import github.

(** ** The two revisions are the same program *)

Lemma handle_struct_positional F wantLGTM pr :
  lgtm_struct.handle F wantLGTM pr =
  lgtm.handle F wantLGTM
    (lgtm_struct.author pr) (lgtm_struct.issueAuthor pr)
    (lgtm_struct.repo pr) (lgtm_struct.assignees pr)
    (lgtm_struct.number pr) (lgtm_struct.body pr) (lgtm_struct.htmlURL pr).
Proof. reflexivity. Qed.

Lemma handleGenericComment_struct_positional F e :
  lgtm_struct.handleGenericComment F e = lgtm.handleGenericComment F e.
Proof. reflexivity. Qed.

Lemma handlePullRequestReview_struct_positional F e :
  lgtm_struct.handlePullRequestReview F e = lgtm.handlePullRequestReview F e.
Proof. reflexivity. Qed.

(** Reduce a statement about both revisions to the positional one. *)
Ltac positional :=
  match goal with
  | H : In _ (both.handle _ _ _) |- _ =>
      destruct H as [<- | [<- | []]];
      [ | rewrite handle_struct_positional ]
  | H : In _ (both.handleGenericComment _ _) |- _ =>
      destruct H as [<- | [<- | []]];
      [ | rewrite handleGenericComment_struct_positional ]
  | H : In _ (both.handlePullRequestReview _ _) |- _ =>
      destruct H as [<- | [<- | []]];
      [ | rewrite handlePullRequestReview_struct_positional ]
  end.

(** C9: the handler with positional arguments and the handler over the
    [state] struct behave identically: against every client and from every
    state of the service, the two [handle] functions, the two comment
    handlers and the two review handlers make the same calls with the same
    arguments in the same order, get the same answers, return the same
    result and leave the service in the same state. *)
Theorem revisions_equivalent :
  forall (F : string -> string -> string -> string -> string)
         (W : Type) (client : githubClient W) (w : W),
    (forall wantLGTM author issueAuthor repo assignees number body htmlURL,
        run client w
          (lgtm_struct.handle F wantLGTM
             (lgtm_struct.Build_state author issueAuthor repo assignees
                number body htmlURL)) =
        run client w
          (lgtm.handle F wantLGTM author issueAuthor repo assignees number
             body htmlURL)) /\
    (forall e : GenericCommentEvent,
        run client w (lgtm_struct.handleGenericComment F e) =
        run client w (lgtm.handleGenericComment F e)) /\
    (forall e : ReviewEvent,
        run client w (lgtm_struct.handlePullRequestReview F e) =
        run client w (lgtm.handlePullRequestReview F e)).
Proof.
  intros F W client w; split; [ | split ]; intros.
  - now rewrite handle_struct_positional.
  - now rewrite handleGenericComment_struct_positional.
  - now rewrite handlePullRequestReview_struct_positional.
Qed.

(** ** Events that are ignored *)

(** C8: a comment event whose target is not a pull request, or whose issue
    is not open, or whose action is not "created", is ignored: the comment
    handler returns nil, makes no client call and leaves the service as it
    was. *)
Theorem comment_filtered_noop :
  forall (F : string -> string -> string -> string -> string)
         (e : GenericCommentEvent),
    IsPR e = false \/ IssueState e <> "open" \/
    Action e <> GenericCommentActionCreated ->
    forall h, In h (both.handleGenericComment F e) ->
    forall (W : Type) (client : githubClient W) (w : W),
      run client w h = ([], None, w).
Proof.
  intros F e Hskip h Hh W client w. positional;
    unfold lgtm.handleGenericComment;
    destruct (IsPR e); cbn [negb orb];
    try reflexivity;
    destruct (String.eqb_spec (IssueState e) "open") as [Ho | Ho];
    cbn [negb orb]; try reflexivity;
    destruct (String.eqb_spec (Action e) GenericCommentActionCreated)
      as [Ha | Ha];
    cbn [negb orb]; try reflexivity;
    destruct Hskip as [Hp | [Hs | Hc]]; congruence.
Qed.

Lemma comment_filtered_noop_witness :
  run fake.client fake.fresh
    (lgtm.handleGenericComment fake.formatResponse
       {| IsPR := true; Action := "edited"; Body := "/lgtm";
          HTMLURL := ""; Number := 5%Z; EventRepo := fake.kubernetes;
          EventUser := fake.bob; IssueAuthor := fake.alice;
          Assignees := [fake.bob]; IssueState := "open" |})
  = ([], None, fake.fresh).
Proof.
  apply (@comment_filtered_noop fake.formatResponse
           {| IsPR := true; Action := "edited"; Body := "/lgtm";
              HTMLURL := ""; Number := 5%Z; EventRepo := fake.kubernetes;
              EventUser := fake.bob; IssueAuthor := fake.alice;
              Assignees := [fake.bob]; IssueState := "open" |}).
  - right; right; simpl; discriminate.
  - simpl; left; reflexivity.
Defined.

(** C7: a review whose state is neither "approve" nor "changes_requested"
    is ignored: the review handler returns nil at once and makes no client
    call. *)
Theorem review_other_state_noop :
  forall (F : string -> string -> string -> string -> string)
         (e : ReviewEvent),
    ReviewState (RevReview e) <> "approve" ->
    ReviewState (RevReview e) <> "changes_requested" ->
    forall h, In h (both.handlePullRequestReview F e) ->
    forall (W : Type) (client : githubClient W) (w : W),
      run client w h = ([], None, w).
Proof.
  intros F e Ha Hc h Hh W client w. positional;
    unfold lgtm.handlePullRequestReview, lgtm.reviewWantLGTM;
    destruct (String.eqb_spec (ReviewState (RevReview e)) "approve");
    try contradiction;
    destruct (String.eqb_spec (ReviewState (RevReview e)) "changes_requested");
    try contradiction; reflexivity.
Qed.

Lemma review_other_state_noop_witness :
  run fake.client fake.fresh
    (lgtm_struct.handlePullRequestReview fake.formatResponse
       (fake.review fake.bob "commented"))
  = ([], None, fake.fresh).
Proof.
  apply (@review_other_state_noop fake.formatResponse
           (fake.review fake.bob "commented")).
  - simpl; discriminate.
  - simpl; discriminate.
  - simpl; right; left; reflexivity.
Defined.

(** ** Runs of [handle] *)

Lemma isAssignee_In author assignees :
  existsb (fun a => String.eqb (Login a) author) assignees = true <->
  In author (map Login assignees).
Proof.
  rewrite existsb_exists, in_map_iff; split; intros [a [H1 H2]]; exists a.
  - apply String.eqb_eq in H2. now split.
  - split; [ assumption | now apply String.eqb_eq ].
Qed.

Lemma run_gc W (client : githubClient W) w c :
  run client w (gc c) =
  (let (r, w1) := client c w in ([observe c r], r, w1)).
Proof. cbn. now destruct (client c w). Qed.

Lemma run_bind W A B (client : githubClient W) (p : prog A) (f : A -> prog B) :
  forall w,
    run client w (bind p f) =
    (let '(tr1, a, w1) := run client w p in
     let '(tr2, b, w2) := run client w1 (f a) in
     (tr1 ++ tr2, b, w2)).
Proof.
  induction p as [a | c k IH]; intros w; cbn [bind run].
  - now destruct (run client w (f a)) as [[tr2 b] w2].
  - destruct (client c w) as [r w1]. rewrite IH.
    destruct (run client w1 (k r)) as [[tr1 a] w2].
    now destruct (run client w2 (f a)) as [[tr2 b] w3].
Qed.

(** Every run of [handle] has one of two shapes: the assignment fails and
    a reply is posted; or the user is, or becomes, an assignee and the
    label step runs, which is the query followed by at most one mutation. *)
Lemma handle_run_cases F wantLGTM author issueAuthor repo assignees number
    body htmlURL W (client : githubClient W) w tr res w' :
  let org := Login (Owner repo) in
  let repoName := Name repo in
  run client w
    (lgtm.handle F wantLGTM author issueAuthor repo assignees number body
       htmlURL) = (tr, res, w') ->
  (exists err w1 m w2,
      ~ In author (map Login assignees) /\
      client (AssignIssue org repoName number [author]) w = (Some err, w1) /\
      client (IsMember org author) w1 = (m, w2) /\
      client (CreateComment org repoName number
                (F body htmlURL author
                   (spec.restrictedReply (spec.assignFailureMessage org m))))
             w2 = (res, w') /\
      tr = [ EvAssignIssue org repoName number [author] (Some err);
             EvIsMember org author m;
             EvCreateComment org repoName number
               (F body htmlURL author
                  (spec.restrictedReply (spec.assignFailureMessage org m)))
               res ])
  \/
  (exists pre r post,
      (pre = [] /\ In author (map Login assignees) \/
       pre = [EvAssignIssue org repoName number [author] None] /\
       ~ In author (map Login assignees) /\
       exists w1,
         client (AssignIssue org repoName number [author]) w = (None, w1)) /\
      tr = pre ++ EvGetIssueLabels org repoName number r :: post /\
      (spec.hasLabel r = true /\ wantLGTM = false /\
       post = [EvRemoveLabel org repoName number "lgtm" res]
       \/
       spec.hasLabel r = false /\ wantLGTM = true /\
       post = [EvAddLabel org repoName number "lgtm" res]
       \/
       spec.hasLabel r = wantLGTM /\ post = [] /\ res = None)).
Proof.
  intros org repoName.
  unfold lgtm.handle. fold org repoName.
  set (mutate := bind (gc (GetIssueLabels org repoName number)) _).
  assert (Hmutate : forall w0 tr0 res0 w0',
    run client w0 mutate = (tr0, res0, w0') ->
    exists r post,
      tr0 = EvGetIssueLabels org repoName number r :: post /\
      (spec.hasLabel r = true /\ wantLGTM = false /\
       post = [EvRemoveLabel org repoName number "lgtm" res0]
       \/
       spec.hasLabel r = false /\ wantLGTM = true /\
       post = [EvAddLabel org repoName number "lgtm" res0]
       \/
       spec.hasLabel r = wantLGTM /\ post = [] /\ res0 = None)).
  { intros w0 tr0 res0 w0'. unfold mutate. rewrite run_bind, run_gc.
    destruct (client (GetIssueLabels org repoName number) w0) as [r w1].
    assert (Hhas :
      existsb (fun candidate => String.eqb (LabelName candidate) lgtm.lgtmLabel)
              (fst r) = spec.hasLabel r)
      by reflexivity.
    rewrite Hhas.
    destruct (spec.hasLabel r) eqn:Hr, wantLGTM; cbn [andb negb];
      cbn [run gc observe app].
    - intros Heq; injection Heq; clear Heq; intros <- <- <-. exists r, []. auto 6.
    - destruct (client (RemoveLabel org repoName number lgtm.lgtmLabel) w1)
        as [a w2]; cbn [observe app].
      intros Heq; injection Heq; clear Heq; intros <- <- <-.
      exists r, [EvRemoveLabel org repoName number "lgtm" a]. auto 6.
    - destruct (client (AddLabel org repoName number lgtm.lgtmLabel) w1)
        as [a w2]; cbn [observe app].
      intros Heq; injection Heq; clear Heq; intros <- <- <-.
      exists r, [EvAddLabel org repoName number "lgtm" a]. auto 6.
    - intros Heq; injection Heq; clear Heq; intros <- <- <-. exists r, []. auto 6. }
  clearbody mutate.
  destruct (existsb (fun assignee => String.eqb (Login assignee) author) assignees)
    eqn:Has; cbn [negb].
  - intros Hrun. apply Hmutate in Hrun. destruct Hrun as (r & post & -> & Hpost).
    right. exists [], r, post. apply isAssignee_In in Has. auto.
  - assert (Hnot : ~ In author (map Login assignees))
      by (rewrite <- isAssignee_In; congruence).
    rewrite run_bind, run_gc.
    destruct (client (AssignIssue org repoName number [author]) w)
      as [[err | ] w1] eqn:Hassign.
    + rewrite run_bind, run_gc.
      destruct (client (IsMember org author) w1) as [m w2] eqn:Hmember.
      assert (Hmsg :
        (("changing LGTM is restricted to assignees, and " ++
          match m with
          | Ok ok =>
              if negb ok
              then ("only " ++ org ++ " org members may be assigned issues")
              else "assigning you to the PR failed"
          | Err _ => "assigning you to the PR failed"
          end ++ ".")%string) =
        spec.restrictedReply (spec.assignFailureMessage org m))
        by (destruct m as [[ | ] | ]; reflexivity).
      rewrite Hmsg. cbn [run gc].
      destruct (client (CreateComment org repoName number
                  (F body htmlURL author
                     (spec.restrictedReply (spec.assignFailureMessage org m))))
                w2) as [rc w3] eqn:Hcomment.
      cbn [observe app].
      intros Heq; injection Heq; clear Heq; intros <- <- <-. left. exists err, w1, m, w2. auto 6.
    + cbn [observe app].
      match goal with
      | |- context [@run ?W' ?A' client w1 mutate] =>
          destruct (@run W' A' client w1 mutate) as [[tr0 a] w2] eqn:Hrun
      end.
      intros Heq; injection Heq; clear Heq; intros <- <- <-. apply Hmutate in Hrun.
      destruct Hrun as (r & post & -> & Hpost).
      right. exists [EvAssignIssue org repoName number [author] None], r, post.
      cbn [app]. split; [ right; eauto | auto ].
Qed.

Lemma run_eta W A (client : githubClient W) w (p : prog A) :
  run client w p = (trace client w p, returned client w p, snd (run client w p)).
Proof. unfold trace, returned. now destruct (run client w p) as [[tr a] w']. Qed.

(** A property of the positional [handle] holds of both revisions. *)
Lemma both_handle_ind F wantLGTM pr (P : prog error -> Prop) :
  P (lgtm.handle F wantLGTM
       (lgtm_struct.author pr) (lgtm_struct.issueAuthor pr)
       (lgtm_struct.repo pr) (lgtm_struct.assignees pr)
       (lgtm_struct.number pr) (lgtm_struct.body pr)
       (lgtm_struct.htmlURL pr)) ->
  forall h, In h (both.handle F wantLGTM pr) -> P h.
Proof.
  intros HP h [<- | [<- | []]]; [ | rewrite handle_struct_positional ];
    exact HP.
Qed.

(** A trace with one label query splits around it in one way only. *)
Lemma split_at_query pre x post pre' x' post' :
  isGetIssueLabels x = true ->
  forallb (fun e => negb (isGetIssueLabels e)) pre' = true ->
  forallb (fun e => negb (isGetIssueLabels e)) post' = true ->
  pre ++ x :: post = pre' ++ x' :: post' ->
  pre = pre' /\ x = x' /\ post = post'.
Proof.
  intros Hx. revert pre'.
  induction pre as [ | a pre IH]; intros [ | a' pre'] Hpre Hpost Heq;
    cbn [app] in Heq; injection Heq as Hhd Htl.
  - now subst.
  - subst a'. cbn [forallb] in Hpre. rewrite Hx in Hpre. discriminate.
  - subst post'. rewrite forallb_app in Hpost. cbn [forallb] in Hpost.
    rewrite Hx, andb_false_r in Hpost. discriminate.
  - cbn [forallb] in Hpre. apply andb_prop in Hpre as [_ Hpre].
    destruct (IH pre' Hpre Hpost Htl) as (-> & -> & ->). now subst.
Qed.

(** The label step of a run, read off the trace: whatever precedes the
    query is the assignment at most, and what follows is decided by the
    answer and the intent. *)
Lemma handle_label_step F wantLGTM author issueAuthor repo assignees number
    body htmlURL W (client : githubClient W) w pre r post :
  let org := Login (Owner repo) in
  let repoName := Name repo in
  let h := lgtm.handle F wantLGTM author issueAuthor repo assignees number
             body htmlURL in
  trace client w h = pre ++ EvGetIssueLabels org repoName number r :: post ->
  (pre = [] \/ pre = [EvAssignIssue org repoName number [author] None]) /\
  (spec.hasLabel r = true /\ wantLGTM = false /\
   post = [EvRemoveLabel org repoName number "lgtm" (returned client w h)]
   \/
   spec.hasLabel r = false /\ wantLGTM = true /\
   post = [EvAddLabel org repoName number "lgtm" (returned client w h)]
   \/
   spec.hasLabel r = wantLGTM /\ post = [] /\ returned client w h = None).
Proof.
  intros org repoName h Htr.
  destruct (handle_run_cases F wantLGTM author issueAuthor repo assignees
              number body htmlURL W client w _ _ _ (run_eta _ _ client w h))
    as [(err & w1 & m & w2 & _ & _ & _ & _ & Hshape)
       | (pre0 & r0 & post0 & Hpre & Hshape & Hpost)];
    fold org repoName h in Hshape; rewrite Hshape in Htr.
  - exfalso.
    assert (Hin : In (EvGetIssueLabels org repoName number r)
                     [EvAssignIssue org repoName number [author] (Some err);
                      EvIsMember org author m;
                      EvCreateComment org repoName number
                        (F body htmlURL author
                           (spec.restrictedReply
                              (spec.assignFailureMessage org m)))
                        (returned client w h)])
      by (rewrite Htr; apply in_elt).
    cbn [In] in Hin. destruct Hin as [Hin | [Hin | [Hin | []]]]; discriminate.
  - fold org repoName h in Hpost.
    symmetry in Htr. apply split_at_query in Htr.
    + destruct Htr as (-> & Hr & ->). injection Hr as ->.
      split; [ tauto | exact Hpost ].
    + reflexivity.
    + destruct Hpre as [[-> _] | (-> & _ & _)]; reflexivity.
    + destruct Hpost as [(_ & _ & ->) | [(_ & _ & ->) | (_ & -> & _)]];
        reflexivity.
Qed.

(** The label step is reached whenever the user is an assignee or the
    assignment succeeds. *)
Lemma label_step_reached F wantLGTM author issueAuthor repo assignees number
    body htmlURL W (client : githubClient W) w :
  let org := Login (Owner repo) in
  let repoName := Name repo in
  In author (map Login assignees) \/
  (exists w1,
      client (AssignIssue org repoName number [author]) w = (None, w1)) ->
  exists pre r post,
    trace client w
      (lgtm.handle F wantLGTM author issueAuthor repo assignees number body
         htmlURL) =
    pre ++ EvGetIssueLabels org repoName number r :: post.
Proof.
  intros org repoName Hpass.
  match goal with |- context [trace client w ?p] => set (h := p) end.
  destruct (handle_run_cases F wantLGTM author issueAuthor repo assignees
              number body htmlURL W client w _ _ _ (run_eta _ _ client w h))
    as [(err & w1 & m & w2 & Hnot & Hassign & _)
       | (pre & r & post & _ & Hshape & _)].
  - fold org repoName in Hassign.
    destruct Hpass as [Hin | (w1' & Hok)]; [ contradiction | ].
    rewrite Hok in Hassign. discriminate.
  - now exists pre, r, post.
Qed.

(** ** Assignment enforcement *)

(** C4: when the acting user is not among the assignees and the AssignIssue
    call fails, the handler asks for the membership, posts exactly one
    comment, whose reply text is "changing LGTM is restricted to assignees,
    and " followed by the chosen message and ".", and returns that call's
    result; it makes no GetIssueLabels, AddLabel or RemoveLabel call,
    however the membership query answered. *)
Theorem assign_failure_reply_only :
  forall (F : string -> string -> string -> string -> string)
         (wantLGTM : bool) (pr : lgtm_struct.state)
         (W : Type) (client : githubClient W) (w w1 : W) (err : string),
    let org := Login (Owner (lgtm_struct.repo pr)) in
    let repoName := Name (lgtm_struct.repo pr) in
    let number := lgtm_struct.number pr in
    let author := lgtm_struct.author pr in
    ~ In author (map Login (lgtm_struct.assignees pr)) ->
    client (AssignIssue org repoName number [author]) w = (Some err, w1) ->
    forall h, In h (both.handle F wantLGTM pr) ->
    exists (m : result bool) (msg : string) (rc : error),
      (msg = "assigning you to the PR failed" \/
       msg = ("only " ++ org ++ " org members may be assigned issues")%string) /\
      trace client w h =
        [ EvAssignIssue org repoName number [author] (Some err);
          EvIsMember org author m;
          EvCreateComment org repoName number
            (F (lgtm_struct.body pr) (lgtm_struct.htmlURL pr) author
               ("changing LGTM is restricted to assignees, and " ++ msg ++ ".")%string)
            rc ] /\
      returned client w h = rc /\
      calls isCreateComment (trace client w h) = 1 /\
      calls isGetIssueLabels (trace client w h) = 0 /\
      calls isAddLabel (trace client w h) = 0 /\
      calls isRemoveLabel (trace client w h) = 0.
Proof.
  intros F wantLGTM pr W client w w1 err org repoName number author
         Hnot Hassign.
  apply both_handle_ind.
  match goal with |- context [trace client w ?p] => set (h := p) end.
  destruct (handle_run_cases F wantLGTM _ _ _ _ _ _ _ W client w _ _ _
              (run_eta _ _ client w h))
    as [(err' & w1' & m & w2 & _ & Hassign' & _ & _ & Hshape)
       | (pre & r & post & [[_ Hin] | (_ & _ & w1' & Hassign')] & _)].
  - fold org repoName number author in Hassign', Hshape.
    rewrite Hassign in Hassign'. injection Hassign' as <- <-.
    exists m, (spec.assignFailureMessage org m), (returned client w h).
    rewrite Hshape. split.
    + destruct m as [[ | ] | ]; cbn [spec.assignFailureMessage]; auto.
    + repeat split; reflexivity.
  - contradiction.
  - fold org repoName number author in Hassign'.
    rewrite Hassign in Hassign'. discriminate.
Qed.

Lemma assign_failure_reply_only_witness :
  calls isCreateComment
    (trace fake.client fake.fresh
       (lgtm_struct.handle fake.formatResponse true
          (fake.request fake.mallory "/lgtm"))) = 1 /\
  calls isAddLabel
    (trace fake.client fake.fresh
       (lgtm_struct.handle fake.formatResponse true
          (fake.request fake.mallory "/lgtm"))) = 0.
Proof.
  destruct (assign_failure_reply_only fake.formatResponse true
              (fake.request fake.mallory "/lgtm")
              fake.service fake.client fake.fresh fake.fresh
              "failed to assign")
    with (h := lgtm_struct.handle fake.formatResponse true
                 (fake.request fake.mallory "/lgtm"))
    as (m & msg & rc & _ & _ & _ & Hc & _ & Ha & _).
  - simpl. intros [H | []]. discriminate.
  - reflexivity.
  - simpl. right. left. reflexivity.
  - split; assumption.
Defined.

(** C6: after a failed AssignIssue call the message of the reply follows
    the membership query: when the query succeeds and says "not a member"
    the message names the organization ("only <org> org members may be
    assigned issues"); when the query itself fails, or the user is a
    member, the message is "assigning you to the PR failed". *)
Theorem assign_failure_message :
  forall (F : string -> string -> string -> string -> string)
         (wantLGTM : bool) (pr : lgtm_struct.state)
         (W : Type) (client : githubClient W) (w w1 w2 : W) (err : string)
         (m : result bool),
    let org := Login (Owner (lgtm_struct.repo pr)) in
    let repoName := Name (lgtm_struct.repo pr) in
    let number := lgtm_struct.number pr in
    let author := lgtm_struct.author pr in
    ~ In author (map Login (lgtm_struct.assignees pr)) ->
    client (AssignIssue org repoName number [author]) w = (Some err, w1) ->
    client (IsMember org author) w1 = (m, w2) ->
    forall h, In h (both.handle F wantLGTM pr) ->
    exists (msg : string) (rc : error),
      trace client w h =
        [ EvAssignIssue org repoName number [author] (Some err);
          EvIsMember org author m;
          EvCreateComment org repoName number
            (F (lgtm_struct.body pr) (lgtm_struct.htmlURL pr) author
               ("changing LGTM is restricted to assignees, and " ++ msg ++ ".")%string)
            rc ] /\
      msg = spec.assignFailureMessage org m /\
      (m = Ok false ->
       msg = ("only " ++ org ++ " org members may be assigned issues")%string) /\
      (m = Ok true -> msg = "assigning you to the PR failed") /\
      (forall merr, m = Err merr -> msg = "assigning you to the PR failed").
Proof.
  intros F wantLGTM pr W client w w1 w2 err m org repoName number author
         Hnot Hassign Hmember.
  apply both_handle_ind.
  match goal with |- context [trace client w ?p] => set (h := p) end.
  destruct (handle_run_cases F wantLGTM _ _ _ _ _ _ _ W client w _ _ _
              (run_eta _ _ client w h))
    as [(err' & w1' & m' & w2' & _ & Hassign' & Hmember' & _ & Hshape)
       | (pre & r & post & [[_ Hin] | (_ & _ & w1' & Hassign')] & _)].
  - fold org repoName number author in Hassign', Hmember', Hshape.
    rewrite Hassign in Hassign'. injection Hassign' as <- <-.
    rewrite Hmember in Hmember'. injection Hmember' as <- <-.
    exists (spec.assignFailureMessage org m), (returned client w h).
    split; [ exact Hshape | split; [ reflexivity | ] ].
    repeat split; intros; subst m; reflexivity.
  - contradiction.
  - fold org repoName number author in Hassign'.
    rewrite Hassign in Hassign'. discriminate.
Qed.

Lemma assign_failure_message_witness :
  exists msg rc,
    trace fake.client fake.membersDownService
      (lgtm.handle fake.formatResponse false "mallory" "alice"
         fake.kubernetes [fake.bob] 5%Z "/lgtm cancel"
         "https://github.com/kubernetes/test-infra/pull/5#c1") =
    [ EvAssignIssue "kubernetes" "test-infra" 5%Z ["mallory"]
        (Some "failed to assign");
      EvIsMember "kubernetes" "mallory" (Err "502 Bad Gateway");
      EvCreateComment "kubernetes" "test-infra" 5%Z
        (fake.formatResponse "/lgtm cancel"
           "https://github.com/kubernetes/test-infra/pull/5#c1" "mallory"
           ("changing LGTM is restricted to assignees, and " ++ msg ++ ".")%string)
        rc ] /\
    msg = "assigning you to the PR failed".
Proof.
  destruct (assign_failure_message fake.formatResponse false
              (fake.request fake.mallory "/lgtm cancel")
              fake.service fake.client
              fake.membersDownService fake.membersDownService
              fake.membersDownService
              "failed to assign" (Err "502 Bad Gateway"))
    with (h := lgtm.handle fake.formatResponse false "mallory" "alice"
                 fake.kubernetes [fake.bob] 5%Z "/lgtm cancel"
                 "https://github.com/kubernetes/test-infra/pull/5#c1")
    as (msg & rc & Htr & _ & _ & _ & Hm).
  - simpl. intros [H | []]. discriminate.
  - reflexivity.
  - reflexivity.
  - simpl. left. reflexivity.
  - exists msg, rc. split; [ exact Htr | exact (Hm _ eq_refl) ].
Defined.

(** ** Label mutation *)

(** C2: in the label step, with hasLabel as queried and the intent
    wantLGTM, exactly one of three things happens.  hasLabel and not
    wantLGTM: one RemoveLabel call with label "lgtm", no AddLabel call, and
    the handler returns the result of that call.  Not hasLabel and
    wantLGTM: one AddLabel call with label "lgtm", no RemoveLabel call, and
    the handler returns the result of that call.  Otherwise: neither call,
    and the handler returns nil. *)
Theorem label_step_three_way :
  forall (F : string -> string -> string -> string -> string)
         (wantLGTM : bool) (pr : lgtm_struct.state)
         (W : Type) (client : githubClient W) (w : W),
    let org := Login (Owner (lgtm_struct.repo pr)) in
    let repoName := Name (lgtm_struct.repo pr) in
    let number := lgtm_struct.number pr in
    forall h, In h (both.handle F wantLGTM pr) ->
    forall (pre post : list event) (r : list Label * error),
      trace client w h =
        pre ++ EvGetIssueLabels org repoName number r :: post ->
      let hasLabel := spec.hasLabel r in
      let result := returned client w h in
      (hasLabel = true -> wantLGTM = false ->
       post = [EvRemoveLabel org repoName number "lgtm" result] /\
       calls isRemoveLabel (trace client w h) = 1 /\
       calls isAddLabel (trace client w h) = 0) /\
      (hasLabel = false -> wantLGTM = true ->
       post = [EvAddLabel org repoName number "lgtm" result] /\
       calls isAddLabel (trace client w h) = 1 /\
       calls isRemoveLabel (trace client w h) = 0) /\
      (hasLabel = wantLGTM ->
       post = [] /\ result = None /\
       calls isAddLabel (trace client w h) = 0 /\
       calls isRemoveLabel (trace client w h) = 0).
Proof.
  intros F wantLGTM pr W client w org repoName number h Hh.
  pattern h. apply (fun HP => both_handle_ind F wantLGTM pr _ HP h Hh).
  clear h Hh.
  intros pre post r Htr hasLabel result.
  destruct (handle_label_step _ _ _ _ _ _ _ _ _ _ _ _ _ _ _ Htr)
    as [Hpre Hpost].
  fold org repoName number hasLabel result in Hpre, Hpost.
  rewrite Htr. unfold calls. rewrite !filter_app.
  destruct Hpost as [(Hh & Hw & ->) | [(Hh & Hw & ->) | (Hh & -> & Hres)]];
    (split; [ | split ]); intros; try congruence;
    try (rewrite Hh in *; congruence);
    destruct Hpre as [-> | ->]; repeat split; try reflexivity; assumption.
Qed.

Lemma label_step_three_way_witness :
  calls isRemoveLabel
    (trace fake.client fake.labelled
       (lgtm.handle fake.formatResponse false "bob" "alice" fake.kubernetes
          [fake.bob] 5%Z "/lgtm cancel"
          "https://github.com/kubernetes/test-infra/pull/5#c1")) = 1 /\
  calls isAddLabel
    (trace fake.client fake.labelled
       (lgtm.handle fake.formatResponse false "bob" "alice" fake.kubernetes
          [fake.bob] 5%Z "/lgtm cancel"
          "https://github.com/kubernetes/test-infra/pull/5#c1")) = 0.
Proof.
  destruct (label_step_three_way fake.formatResponse false
              (fake.request fake.bob "/lgtm cancel")
              fake.service fake.client fake.labelled
              (lgtm.handle fake.formatResponse false "bob" "alice"
                 fake.kubernetes [fake.bob] 5%Z "/lgtm cancel"
                 "https://github.com/kubernetes/test-infra/pull/5#c1")
              (or_introl eq_refl)
              [] [EvRemoveLabel "kubernetes" "test-infra" 5%Z "lgtm" None]
              ([{| LabelName := "lgtm" |}], None) eq_refl)
    as (Hremove & _ & _).
  destruct (Hremove eq_refl eq_refl) as (_ & Hcalls & Hnone).
  split; [ exact Hcalls | exact Hnone ].
Defined.

(** C5, as amended: a failed GetIssueLabels query is not propagated: the
    handler goes on with the labels that came back beside the error.  When
    "lgtm" is not among them (in particular when there are none, as after a
    failed query of the prow client) it goes on with hasLabel = false: with
    wantLGTM = true it makes the AddLabel call (whatever labels the issue
    really has) and returns the result of that call; with wantLGTM = false
    it makes no mutation and returns nil.  Labels that come back beside the
    error are read all the same: with "lgtm" among them, wantLGTM = false
    removes the label and wantLGTM = true makes no mutation. *)
Theorem label_query_failure_fails_open :
  forall (F : string -> string -> string -> string -> string)
         (wantLGTM : bool) (pr : lgtm_struct.state)
         (W : Type) (client : githubClient W) (w : W),
    let org := Login (Owner (lgtm_struct.repo pr)) in
    let repoName := Name (lgtm_struct.repo pr) in
    let number := lgtm_struct.number pr in
    forall h, In h (both.handle F wantLGTM pr) ->
    forall (pre post : list event) (labels : list Label) (qerr : string),
      trace client w h =
        pre ++ EvGetIssueLabels org repoName number (labels, Some qerr)
            :: post ->
      let hasLabel := spec.hasLabel (labels, Some qerr) in
      let result := returned client w h in
      (labels = [] -> hasLabel = false) /\
      (hasLabel = false -> wantLGTM = true ->
       post = [EvAddLabel org repoName number "lgtm" result] /\
       calls isAddLabel (trace client w h) = 1 /\
       calls isRemoveLabel (trace client w h) = 0) /\
      (hasLabel = false -> wantLGTM = false ->
       post = [] /\ result = None /\
       calls isAddLabel (trace client w h) = 0 /\
       calls isRemoveLabel (trace client w h) = 0) /\
      (hasLabel = true -> wantLGTM = false ->
       post = [EvRemoveLabel org repoName number "lgtm" result] /\
       calls isRemoveLabel (trace client w h) = 1 /\
       calls isAddLabel (trace client w h) = 0) /\
      (hasLabel = true -> wantLGTM = true ->
       post = [] /\ result = None /\
       calls isAddLabel (trace client w h) = 0 /\
       calls isRemoveLabel (trace client w h) = 0).
Proof.
  intros F wantLGTM pr W client w org repoName number h Hh.
  pattern h. apply (fun HP => both_handle_ind F wantLGTM pr _ HP h Hh).
  clear h Hh.
  intros pre post labels qerr Htr hasLabel result.
  destruct (handle_label_step _ _ _ _ _ _ _ _ _ _ _ _ _ _ _ Htr)
    as [Hpre Hpost].
  fold org repoName number hasLabel result in Hpre, Hpost.
  split; [ intros ->; reflexivity | ].
  rewrite Htr. unfold calls. rewrite !filter_app.
  destruct Hpost as [(Hh & Hw & ->) | [(Hh & Hw & ->) | (Hh & -> & Hres)]];
    repeat split; intros; try congruence;
    try exact Hres;
    destruct Hpre as [-> | ->]; reflexivity.
Qed.

Lemma label_query_failure_fails_open_witness :
  trace fake.client fake.labelledDown
    (lgtm.handle fake.formatResponse true "bob" "alice" fake.kubernetes
       [fake.bob] 5%Z "/lgtm"
       "https://github.com/kubernetes/test-infra/pull/5#c1") =
  [ EvGetIssueLabels "kubernetes" "test-infra" 5%Z
      ([], Some "502 Bad Gateway");
    EvAddLabel "kubernetes" "test-infra" 5%Z "lgtm" None ] /\
  calls isAddLabel
    (trace fake.client fake.labelledDown
       (lgtm.handle fake.formatResponse true "bob" "alice" fake.kubernetes
          [fake.bob] 5%Z "/lgtm"
          "https://github.com/kubernetes/test-infra/pull/5#c1")) = 1.
Proof.
  split; [ reflexivity | ].
  destruct (label_query_failure_fails_open fake.formatResponse true
              (fake.request fake.bob "/lgtm")
              fake.service fake.client fake.labelledDown
              (lgtm.handle fake.formatResponse true "bob" "alice"
                 fake.kubernetes [fake.bob] 5%Z "/lgtm"
                 "https://github.com/kubernetes/test-infra/pull/5#c1")
              (or_introl eq_refl)
              [] [EvAddLabel "kubernetes" "test-infra" 5%Z "lgtm" None]
              [] "502 Bad Gateway" eq_refl)
    as (_ & Hadd & _).
  destruct (Hadd eq_refl eq_refl) as (_ & Hcalls & _).
  exact Hcalls.
Defined.

(** C5 as it was stated fails when labels come back beside the error: the
    query of [partialClient] fails and hands back the label "lgtm"; then
    "/lgtm" makes no AddLabel call, and "/lgtm cancel" makes a RemoveLabel
    call. *)
Lemma failed_query_labels_are_read :
  trace fake.partialClient fake.labelledDown
    (lgtm.handle fake.formatResponse true "bob" "alice" fake.kubernetes
       [fake.bob] 5%Z "/lgtm"
       "https://github.com/kubernetes/test-infra/pull/5#c1") =
  [ EvGetIssueLabels "kubernetes" "test-infra" 5%Z
      ([{| LabelName := "lgtm" |}], Some "502 Bad Gateway") ] /\
  trace fake.partialClient fake.labelledDown
    (lgtm.handle fake.formatResponse false "bob" "alice" fake.kubernetes
       [fake.bob] 5%Z "/lgtm cancel"
       "https://github.com/kubernetes/test-infra/pull/5#c1") =
  [ EvGetIssueLabels "kubernetes" "test-infra" 5%Z
      ([{| LabelName := "lgtm" |}], Some "502 Bad Gateway");
    EvRemoveLabel "kubernetes" "test-infra" 5%Z "lgtm" None ] /\
  trace fake.partialClient fake.labelledDown
    (lgtm_struct.handle fake.formatResponse false
       (fake.request fake.bob "/lgtm cancel")) =
  [ EvGetIssueLabels "kubernetes" "test-infra" 5%Z
      ([{| LabelName := "lgtm" |}], Some "502 Bad Gateway");
    EvRemoveLabel "kubernetes" "test-infra" 5%Z "lgtm" None ].
Proof. repeat split. Qed.

(** ** The patterns, line by line *)

Import regexp.

Lemma rmatch_lit_fold a c prev s k :
  spec.eqb_nocase a c = true ->
  k (Some c) s = true ->
  rmatch (lit_fold a) prev (c :: s) k = true.
Proof.
  unfold spec.eqb_nocase, lit_fold, to_lower, to_upper.
  intros Hc Hk.
  apply orb_prop in Hc.
  destruct (is_upper a), (is_lower a); cbn [orb];
    try destruct (fold_extra a); cbn [rmatch];
    destruct Hc as [Hc | Hc]; rewrite Hc, Hk; cbn [andb orb];
    rewrite ?orb_true_r; reflexivity.
Qed.

Lemma rmatch_lits_fold p :
  forall s rest prev k,
    spec.strip_nocase p s = Some rest ->
    (forall pv, k pv rest = true) ->
    rmatch (lits_fold p) prev s k = true.
Proof.
  induction p as [ | a p IH]; intros s rest prev k Hs Hk; cbn in Hs.
  - injection Hs as ->. cbn [lits_fold rmatch]. apply Hk.
  - destruct s as [ | c s]; [ discriminate | ].
    destruct (spec.eqb_nocase a c) eqn:Hc; [ | discriminate ].
    cbn [lits_fold rmatch]. apply rmatch_lit_fold; [ exact Hc | ].
    now apply IH with (rest := rest).
Qed.

Lemma strip_nocase_app_r p :
  forall s rest post,
    spec.strip_nocase p s = Some rest ->
    spec.strip_nocase p (s ++ post) = Some (rest ++ post).
Proof.
  induction p as [ | a p IH]; intros s rest post Hs; cbn in Hs |- *.
  - now injection Hs as ->.
  - destruct s as [ | c s]; [ discriminate | ]. cbn [app].
    destruct (spec.eqb_nocase a c); [ now apply IH | discriminate ].
Qed.

Lemma strip_nocase_app_l p1 p2 :
  forall s rest,
    spec.strip_nocase (p1 ++ p2) s = Some rest ->
    exists mid, spec.strip_nocase p1 s = Some mid /\
                spec.strip_nocase p2 mid = Some rest.
Proof.
  induction p1 as [ | a p1 IH]; intros s rest Hs; cbn [app] in Hs.
  - exists s. now split.
  - cbn in Hs |- *. destruct s as [ | c s]; [ discriminate | ].
    destruct (spec.eqb_nocase a c); [ now apply IH | discriminate ].
Qed.

Lemma star_space_spaces ws :
  forall rest prev fuel k,
    forallb is_space ws = true ->
    List.length ws <= fuel ->
    (forall pv, k pv rest = true) ->
    star_iter (rmatch Space) fuel prev (ws ++ rest) k = true.
Proof.
  induction ws as [ | c ws IH]; intros rest prev fuel k Hws Hfuel Hk.
  - cbn [app]. destruct fuel; cbn [star_iter]; now rewrite Hk.
  - cbn [forallb] in Hws. apply andb_prop in Hws as [Hc Hws].
    destruct fuel as [ | fuel]; [ cbn in Hfuel; lia | ].
    cbn [star_iter app rmatch]. rewrite Hc. cbn [andb].
    replace (Nat.ltb (List.length (ws ++ rest))
                     (List.length (c :: ws ++ rest))) with true
      by (symmetry; apply Nat.ltb_lt; cbn; lia).
    cbn [andb]. rewrite IH; [ apply orb_true_r | assumption | | assumption ].
    cbn in Hfuel. lia.
Qed.

(** Whitespace up to the end of the line matches [\s*$]. *)
Lemma rmatch_trailing ws post prev :
  forallb is_space ws = true ->
  at_end_line post = true ->
  rmatch (Seq (Star Space) EndLine) prev (ws ++ post) (fun _ _ => true) = true.
Proof.
  intros Hws Hpost. cbn [rmatch].
  apply star_space_spaces.
  - exact Hws.
  - rewrite length_app. lia.
  - intros pv. now rewrite Hpost.
Qed.

(** A line that is the affirmative command matches [lgtmRe] wherever it
    stands as a line. *)
Lemma lgtm_line_matches l prev post :
  spec.lgtm_line l = true ->
  at_begin_line prev = true ->
  at_end_line post = true ->
  rmatch lgtm.lgtmRe prev (l ++ post) (fun _ _ => true) = true.
Proof.
  unfold spec.lgtm_line, spec.command_line. intros Hl Hprev Hpost.
  unfold lgtm.lgtmRe, literal_fold, Opt. cbn [rmatch]. rewrite Hprev.
  cbn [andb].
  apply orb_prop in Hl as [Hl | Hl].
  - destruct (spec.strip_nocase _ l) as [rest | ] eqn:Hs; [ | discriminate ].
    apply rmatch_lits_fold with (rest := (rest ++ post)%list).
    + now apply strip_nocase_app_r.
    + intros pv. apply orb_true_intro. right.
      exact (rmatch_trailing rest post pv Hl Hpost).
  - destruct (spec.strip_nocase _ l) as [rest | ] eqn:Hs; [ | discriminate ].
    change (list_ascii_of_string "/lgtm no-issue")
      with (list_ascii_of_string "/lgtm" ++
            list_ascii_of_string " no-issue")%list in Hs.
    apply strip_nocase_app_l in Hs as (mid & Hmid & Hrest).
    apply rmatch_lits_fold with (rest := (mid ++ post)%list).
    + now apply strip_nocase_app_r.
    + intros pv. apply orb_true_intro. left.
      apply rmatch_lits_fold with (rest := (rest ++ post)%list).
      * now apply strip_nocase_app_r.
      * intros pv'. exact (rmatch_trailing rest post pv' Hl Hpost).
Qed.

Lemma cancel_line_matches l prev post :
  spec.cancel_line l = true ->
  at_begin_line prev = true ->
  at_end_line post = true ->
  rmatch lgtm.lgtmCancelRe prev (l ++ post) (fun _ _ => true) = true.
Proof.
  unfold spec.cancel_line, spec.command_line. intros Hl Hprev Hpost.
  unfold lgtm.lgtmCancelRe, literal_fold. cbn [rmatch]. rewrite Hprev.
  cbn [andb].
  destruct (spec.strip_nocase _ l) as [rest | ] eqn:Hs; [ | discriminate ].
  apply rmatch_lits_fold with (rest := (rest ++ post)%list).
  - now apply strip_nocase_app_r.
  - intros pv. exact (rmatch_trailing rest post pv Hl Hpost).
Qed.

(** The first line of a text is a prefix of it that ends at a line end. *)
Lemma lines_head s :
  forall l ls,
    spec.lines s = l :: ls ->
    exists post, s = (l ++ post)%list /\ at_end_line post = true.
Proof.
  induction s as [ | c s IH]; intros l ls Hl; cbn [spec.lines] in Hl.
  - injection Hl as <- <-. now exists [].
  - destruct (Ascii.eqb c newline) eqn:Hc.
    + injection Hl as <- <-. exists (c :: s). cbn [app at_end_line]. auto.
    + destruct (spec.lines s) as [ | l0 ls0] eqn:Hs.
      * injection Hl as <- <-. destruct s; cbn in Hs.
        -- now exists [].
        -- destruct (Ascii.eqb a newline); [ discriminate | ].
           destruct (spec.lines s); discriminate.
      * injection Hl as <- <-.
        destruct (IH l0 ls0 eq_refl) as (post & -> & Hpost).
        now exists post.
Qed.

(** A pattern that matches a line wherever the line stands is found by the
    search in every text that has the line. *)
Lemma search_line r l :
  (forall prev post,
      at_begin_line prev = true -> at_end_line post = true ->
      rmatch r prev (l ++ post) (fun _ _ => true) = true) ->
  forall s prev,
    (exists ls, spec.lines s = l :: ls /\ at_begin_line prev = true) \/
    (exists l0 ls, spec.lines s = l0 :: ls /\ In l ls) ->
    search r prev s = true.
Proof.
  intros Hr. induction s as [ | c s IH]; intros prev Hin.
  - destruct Hin as [(ls & Hl & Hprev) | (l0 & ls & Hl & Hin)].
    + destruct (lines_head [] l ls Hl) as (post & Hs & Hpost).
      cbn [search]. rewrite Hs, Hr by assumption. reflexivity.
    + cbn in Hl. injection Hl as <- <-. destruct Hin.
  - destruct Hin as [(ls & Hl & Hprev) | (l0 & ls & Hl & Hin)].
    + destruct (lines_head (c :: s) l ls Hl) as (post & Hs & Hpost).
      cbn [search]. rewrite Hs at 1. rewrite Hr by assumption. reflexivity.
    + cbn [search]. apply orb_true_intro. right. apply IH.
      cbn [spec.lines] in Hl.
      destruct (Ascii.eqb c newline) eqn:Hc.
      * injection Hl as <- <-.
        destruct (spec.lines s) as [ | l1 ls1] eqn:Hs; [ destruct Hin | ].
        destruct Hin as [<- | Hin].
        -- left. exists ls1. split; [ reflexivity | exact Hc ].
        -- right. now exists l1, ls1.
      * destruct (spec.lines s) as [ | l1 ls1] eqn:Hs.
        -- injection Hl as <- <-. destruct Hin.
        -- injection Hl as <- <-. right. now exists l1, ls1.
Qed.

Lemma MatchString_line r l body :
  (forall prev post,
      at_begin_line prev = true -> at_end_line post = true ->
      rmatch r prev (l ++ post) (fun _ _ => true) = true) ->
  In l (spec.body_lines body) ->
  MatchString r body = true.
Proof.
  intros Hr Hin. unfold MatchString, spec.body_lines in *.
  apply search_line with (l := l); [ exact Hr | ].
  destruct (spec.lines (list_ascii_of_string body)) as [ | l0 ls] eqn:Hs;
    [ destruct Hin | ].
  destruct Hin as [<- | Hin].
  - left. now exists ls.
  - right. now exists l0, ls.
Qed.

Lemma MatchString_lgtm_line body l :
  In l (spec.body_lines body) ->
  spec.lgtm_line l = true ->
  MatchString lgtm.lgtmRe body = true.
Proof.
  intros Hin Hl. apply MatchString_line with (l := l); [ | exact Hin ].
  intros prev post. now apply lgtm_line_matches.
Qed.

Lemma MatchString_cancel_line body l :
  In l (spec.body_lines body) ->
  spec.cancel_line l = true ->
  MatchString lgtm.lgtmCancelRe body = true.
Proof.
  intros Hin Hl. apply MatchString_line with (l := l); [ | exact Hin ].
  intros prev post. now apply cancel_line_matches.
Qed.

(** ** The converse, for ASCII bodies

    Outside ASCII the patterns accept a little more than the lines above:
    under (?i) the long s (U+017F) is a spelling of [s].  On ASCII bodies
    the patterns and the lines agree exactly. *)

Lemma nocase_newline :
  forall a c, spec.eqb_nocase a c = true -> c = newline -> a = newline.
Proof.
  intros a c Hc ->. revert Hc.
  destruct a as [[] [] [] [] [] [] [] []]; vm_compute; congruence.
Qed.

Lemma rmatch_bytes_non_ascii enc prev s k :
  match enc with b :: _ => spec.is_ascii b = false | [] => False end ->
  forallb spec.is_ascii s = true ->
  rmatch (bytes enc) prev s k = false.
Proof.
  destruct enc as [ | b enc]; [ intros [] | ]. intros Hb Hs.
  cbn [bytes rmatch]. destruct s as [ | c s]; [ reflexivity | ].
  cbn [forallb] in Hs. apply andb_prop in Hs as [Hc _].
  destruct (Ascii.eqb_spec c b) as [-> | _]; [ congruence | reflexivity ].
Qed.

Lemma rmatch_lit_fold_inv a prev s k :
  forallb spec.is_ascii s = true ->
  rmatch (lit_fold a) prev s k = true ->
  exists c s', s = c :: s' /\ spec.eqb_nocase a c = true /\
               k (Some c) s' = true.
Proof.
  intros Hs. unfold lit_fold, spec.eqb_nocase.
  assert (Hbyte : forall b,
    rmatch (Byte b) prev s k = true ->
    exists c s', s = c :: s' /\ Ascii.eqb c b = true /\ k (Some c) s' = true).
  { intros b. cbn [rmatch]. destruct s as [ | c s']; [ discriminate | ].
    intros H. apply andb_prop in H as [H1 H2]. now exists c, s'. }
  assert (Hextra : forall enc, fold_extra a = Some enc ->
    rmatch (bytes enc) prev s k = false).
  { intros enc. unfold fold_extra.
    destruct (Ascii.eqb (to_lower a) "s");
      [ | destruct (Ascii.eqb (to_lower a) "k"); [ | discriminate ] ];
      intros [= <-]; now apply rmatch_bytes_non_ascii. }
  destruct (is_upper a || is_lower a) eqn:Hletter.
  - destruct (fold_extra a) as [enc | ] eqn:He; cbn [rmatch];
      rewrite ?(Hextra enc eq_refl), ?orb_false_r;
      intros H; apply orb_prop in H as [H | H];
      apply Hbyte in H as (c & s' & -> & Hc & Hk);
      exists c, s'; rewrite Hc, ?orb_true_r; auto.
  - apply orb_false_elim in Hletter as [Hu Hl].
    unfold to_lower, to_upper. rewrite Hu, Hl.
    intros H. apply Hbyte in H as (c & s' & -> & Hc & Hk).
    exists c, s'. rewrite Hc. auto.
Qed.

Lemma rmatch_lits_fold_inv p :
  forall s prev k,
    forallb spec.is_ascii s = true ->
    rmatch (lits_fold p) prev s k = true ->
    exists rest pv, spec.strip_nocase p s = Some rest /\ k pv rest = true.
Proof.
  induction p as [ | a p IH]; intros s prev k Hs; cbn [lits_fold rmatch].
  - intros Hk. now exists s, prev.
  - intros H. apply rmatch_lit_fold_inv in H as (c & s' & -> & Hc & Hk);
      [ | exact Hs ].
    cbn [forallb] in Hs. apply andb_prop in Hs as [_ Hs].
    apply IH in Hk as (rest & pv & Hrest & Hk); [ | exact Hs ].
    exists rest, pv. cbn. now rewrite Hc.
Qed.

(** What [strip_nocase] takes off: a prefix without newline (the command
    texts have none) that is taken off whatever follows. *)
Lemma strip_nocase_split p :
  forall s rest,
    spec.strip_nocase p s = Some rest ->
    forallb (fun a => negb (Ascii.eqb a newline)) p = true ->
    exists m, s = (m ++ rest)%list /\
              forallb (fun c => negb (Ascii.eqb c newline)) m = true /\
              forall rest', spec.strip_nocase p (m ++ rest') = Some rest'.
Proof.
  induction p as [ | a p IH]; intros s rest Hs Hp; cbn in Hs.
  - injection Hs as ->. now exists [].
  - destruct s as [ | c s]; [ discriminate | ].
    destruct (spec.eqb_nocase a c) eqn:Hc; [ | discriminate ].
    cbn [forallb] in Hp. apply andb_prop in Hp as [Ha Hp].
    destruct (IH s rest Hs Hp) as (m & -> & Hm & Hstrip).
    exists (c :: m). split; [ reflexivity | split ].
    + cbn [forallb]. rewrite Hm, andb_true_r.
      destruct (Ascii.eqb_spec c newline) as [Hnl | _]; [ | reflexivity ].
      rewrite (nocase_newline a c Hc Hnl), Ascii.eqb_refl in Ha. discriminate.
    + intros rest'. cbn. rewrite Hc. apply Hstrip.
Qed.

Lemma star_space_inv fuel :
  forall prev s k,
    star_iter (rmatch Space) fuel prev s k = true ->
    exists ws rest pv,
      s = (ws ++ rest)%list /\ forallb is_space ws = true /\
      k pv rest = true.
Proof.
  induction fuel as [ | fuel IH]; intros prev s k; cbn [star_iter].
  - rewrite orb_false_r. intros Hk. now exists [], s, prev.
  - intros H. apply orb_prop in H as [Hk | H].
    + now exists [], s, prev.
    + cbn [rmatch] in H. destruct s as [ | c s]; [ discriminate | ].
      apply andb_prop in H as [Hc H]. apply andb_prop in H as [_ H].
      apply IH in H as (ws & rest & pv & -> & Hws & Hk).
      exists (c :: ws), rest, pv. cbn [forallb app]. now rewrite Hc, Hws.
Qed.

(** Whitespace up to a line end: cut at the first newline. *)
Lemma trailing_cut ws :
  forall post,
    forallb is_space ws = true -> at_end_line post = true ->
    exists ws1 post1,
      (ws ++ post = ws1 ++ post1)%list /\
      forallb is_space ws1 = true /\
      forallb (fun c => negb (Ascii.eqb c newline)) ws1 = true /\
      at_end_line post1 = true.
Proof.
  induction ws as [ | c ws IH]; intros post Hws Hpost.
  - now exists [], post.
  - cbn [forallb] in Hws. apply andb_prop in Hws as [Hc Hws].
    destruct (Ascii.eqb c newline) eqn:Hnl.
    + exists [], (c :: ws ++ post)%list. cbn [at_end_line]. auto.
    + destruct (IH post Hws Hpost) as (ws1 & post1 & Heq & H1 & H2 & H3).
      exists (c :: ws1), post1. cbn [app forallb].
      rewrite Heq, Hc, Hnl, H1, H2. auto.
Qed.

Lemma rmatch_trailing_inv prev s :
  rmatch (Seq (Star Space) EndLine) prev s (fun _ _ => true) = true ->
  exists ws post,
    s = (ws ++ post)%list /\ forallb is_space ws = true /\
    forallb (fun c => negb (Ascii.eqb c newline)) ws = true /\
    at_end_line post = true.
Proof.
  cbn [rmatch]. intros H.
  apply star_space_inv in H as (ws & rest & pv & -> & Hws & Hend).
  rewrite andb_true_r in Hend.
  destruct (trailing_cut ws rest Hws Hend) as (ws1 & post1 & Heq & H1 & H2 & H3).
  now exists ws1, post1.
Qed.

Lemma forallb_ascii_suffix m rest :
  forallb spec.is_ascii (m ++ rest) = true ->
  forallb spec.is_ascii rest = true.
Proof. rewrite forallb_app. intros H. now apply andb_prop in H. Qed.

(** After [cmd], whitespace and a line end make a command line that stands
    before a line end. *)
Lemma command_line_of_strip cmd s rest pv :
  forallb (fun a => negb (Ascii.eqb a newline)) (list_ascii_of_string cmd)
    = true ->
  spec.strip_nocase (list_ascii_of_string cmd) s = Some rest ->
  rmatch (Seq (Star Space) EndLine) pv rest (fun _ _ => true) = true ->
  exists l post,
    s = (l ++ post)%list /\ spec.command_line cmd l = true /\
    forallb (fun c => negb (Ascii.eqb c newline)) l = true /\
    at_end_line post = true.
Proof.
  intros Hcmd Hstrip Htail.
  apply rmatch_trailing_inv in Htail as (ws & post & -> & Hws & Hnl & Hpost).
  destruct (strip_nocase_split _ _ _ Hstrip Hcmd) as (m & -> & Hm & Hm').
  exists (m ++ ws)%list, post. rewrite app_assoc. split; [ reflexivity | ].
  split; [ | split; [ | exact Hpost ] ].
  - unfold spec.command_line. now rewrite Hm'.
  - rewrite forallb_app. now rewrite Hm, Hnl.
Qed.

Lemma strip_nocase_app p1 p2 :
  forall s mid rest,
    spec.strip_nocase p1 s = Some mid ->
    spec.strip_nocase p2 mid = Some rest ->
    spec.strip_nocase (p1 ++ p2) s = Some rest.
Proof.
  induction p1 as [ | a p1 IH]; intros s mid rest H1 H2; cbn in H1 |- *.
  - now injection H1 as ->.
  - destruct s as [ | c s]; [ discriminate | ].
    destruct (spec.eqb_nocase a c); [ now apply IH with mid | discriminate ].
Qed.

Lemma strip_nocase_ascii p :
  forall s rest,
    spec.strip_nocase p s = Some rest ->
    forallb spec.is_ascii s = true -> forallb spec.is_ascii rest = true.
Proof.
  induction p as [ | a p IH]; intros s rest Hs Ha; cbn in Hs.
  - now injection Hs as <-.
  - destruct s as [ | c s]; [ discriminate | ].
    destruct (spec.eqb_nocase a c); [ | discriminate ].
    cbn [forallb] in Ha. apply andb_prop in Ha as [_ Ha]. now apply IH with s.
Qed.

Lemma lgtmRe_inv prev s :
  forallb spec.is_ascii s = true ->
  rmatch lgtm.lgtmRe prev s (fun _ _ => true) = true ->
  at_begin_line prev = true /\
  exists l post,
    s = (l ++ post)%list /\ spec.lgtm_line l = true /\
    forallb (fun c => negb (Ascii.eqb c newline)) l = true /\
    at_end_line post = true.
Proof.
  intros Hs H.
  change (at_begin_line prev &&
          rmatch (lits_fold (list_ascii_of_string "/lgtm")) prev s
            (fun p1 s1 =>
               rmatch (lits_fold (list_ascii_of_string " no-issue")) p1 s1
                 (fun p2 s2 =>
                    rmatch (Seq (Star Space) EndLine) p2 s2 (fun _ _ => true))
               || rmatch (Seq (Star Space) EndLine) p1 s1 (fun _ _ => true))
          = true) in H.
  apply andb_prop in H as [Hprev H]. split; [ exact Hprev | ].
  apply rmatch_lits_fold_inv in H as (mid & pv & Hmid & H); [ | exact Hs ].
  unfold spec.lgtm_line. apply orb_prop in H as [H | H].
  - apply rmatch_lits_fold_inv in H as (rest & pv' & Hrest & H);
      [ | exact (strip_nocase_ascii _ _ _ Hmid Hs) ].
    pose proof (strip_nocase_app _ _ _ _ _ Hmid Hrest) as Hboth.
    destruct (command_line_of_strip "/lgtm no-issue" s rest pv' eq_refl Hboth H)
      as (l & post & Heq & Hl & Hnl & Hpost).
    exists l, post. rewrite Hl, orb_true_r. auto.
  - destruct (command_line_of_strip "/lgtm" s mid pv eq_refl Hmid H)
      as (l & post & Heq & Hl & Hnl & Hpost).
    exists l, post. rewrite Hl. auto.
Qed.

Lemma lgtmCancelRe_inv prev s :
  forallb spec.is_ascii s = true ->
  rmatch lgtm.lgtmCancelRe prev s (fun _ _ => true) = true ->
  at_begin_line prev = true /\
  exists l post,
    s = (l ++ post)%list /\ spec.cancel_line l = true /\
    forallb (fun c => negb (Ascii.eqb c newline)) l = true /\
    at_end_line post = true.
Proof.
  intros Hs H.
  change (at_begin_line prev &&
          rmatch (lits_fold (list_ascii_of_string "/lgtm cancel")) prev s
            (fun p1 s1 =>
               rmatch (Seq (Star Space) EndLine) p1 s1 (fun _ _ => true))
          = true) in H.
  apply andb_prop in H as [Hprev H]. split; [ exact Hprev | ].
  apply rmatch_lits_fold_inv in H as (rest & pv & Hrest & H); [ | exact Hs ].
  exact (command_line_of_strip "/lgtm cancel" s rest pv eq_refl Hrest H).
Qed.

(** A successful search has a match that starts after some prefix [pre];
    the byte before the match is the last byte of [pre]. *)
Lemma search_inv r :
  forall s prev,
    search r prev s = true ->
    exists pre rest,
      s = (pre ++ rest)%list /\
      rmatch r (fold_left (fun _ c => Some c) pre prev) rest
        (fun _ _ => true) = true.
Proof.
  induction s as [ | c s IH]; intros prev H; cbn [search] in H.
  - rewrite orb_false_r in H. now exists [], [].
  - apply orb_prop in H as [H | H].
    + now exists [], (c :: s).
    + apply IH in H as (pre & rest & -> & H). now exists (c :: pre), rest.
Qed.

Lemma begin_line_after pre :
  at_begin_line (fold_left (fun _ c => Some c) pre None) = true ->
  pre = [] \/ exists pre', pre = (pre' ++ [newline])%list.
Proof.
  destruct pre as [ | c pre] using rev_ind; [ now left | ].
  rewrite fold_left_app. cbn. intros H. apply Ascii.eqb_eq in H as ->.
  right. now exists pre.
Qed.

Lemma lines_head_intro l :
  forall post,
    forallb (fun c => negb (Ascii.eqb c newline)) l = true ->
    at_end_line post = true ->
    exists ls, spec.lines (l ++ post) = l :: ls.
Proof.
  induction l as [ | c l IH]; intros post Hl Hpost; cbn [app].
  - destruct post as [ | c post]; cbn [spec.lines].
    + now exists [].
    + cbn in Hpost. rewrite Hpost. now exists (spec.lines post).
  - cbn [forallb] in Hl. apply andb_prop in Hl as [Hc Hl].
    cbn [spec.lines]. apply negb_true_iff in Hc. rewrite Hc.
    destruct (IH post Hl Hpost) as (ls & ->). now exists ls.
Qed.

Lemma lines_after_newline x rest pre :
  In x (spec.lines rest) ->
  exists l0 ls,
    spec.lines (pre ++ newline :: rest) = l0 :: ls /\ In x ls.
Proof.
  intros Hx. induction pre as [ | c pre IH]; cbn [app spec.lines].
  - rewrite Ascii.eqb_refl. now exists [], (spec.lines rest).
  - destruct IH as (l0 & ls & -> & Hin).
    destruct (Ascii.eqb c newline).
    + exists [], (l0 :: ls). split; [ reflexivity | now right ].
    + now exists (c :: l0), ls.
Qed.

Lemma MatchString_inv r line body :
  (forall prev s,
      forallb spec.is_ascii s = true ->
      rmatch r prev s (fun _ _ => true) = true ->
      at_begin_line prev = true /\
      exists l post,
        s = (l ++ post)%list /\ line l = true /\
        forallb (fun c => negb (Ascii.eqb c newline)) l = true /\
        at_end_line post = true) ->
  spec.ascii_body body = true ->
  MatchString r body = true ->
  exists l, In l (spec.body_lines body) /\ line l = true.
Proof.
  unfold spec.ascii_body, MatchString, spec.body_lines.
  intros Hr Hascii H.
  apply search_inv in H as (pre & rest & Heq & H).
  rewrite Heq in Hascii |- *.
  apply Hr in H as (Hprev & l & post & -> & Hl & Hnl & Hpost);
    [ | exact (forallb_ascii_suffix _ _ Hascii) ].
  exists l. split; [ | exact Hl ].
  destruct (lines_head_intro l post Hnl Hpost) as (ls & Hlines).
  apply begin_line_after in Hprev as [-> | (pre' & ->)].
  - cbn [app]. rewrite Hlines. now left.
  - rewrite <- app_assoc. cbn [app].
    destruct (lines_after_newline l (l ++ post) pre') as (l0 & ls0 & -> & Hin).
    + rewrite Hlines. now left.
    + now right.
Qed.

(** On ASCII bodies the affirmative pattern matches exactly when some line
    is the affirmative command. *)
Lemma MatchString_lgtmRe_lines body :
  spec.ascii_body body = true ->
  MatchString lgtm.lgtmRe body = existsb spec.lgtm_line (spec.body_lines body).
Proof.
  intros Hascii.
  destruct (existsb spec.lgtm_line (spec.body_lines body)) eqn:Hex.
  - apply existsb_exists in Hex as (l & Hin & Hl).
    exact (MatchString_lgtm_line body l Hin Hl).
  - destruct (MatchString lgtm.lgtmRe body) eqn:Hm; [ | reflexivity ].
    destruct (MatchString_inv lgtm.lgtmRe spec.lgtm_line body lgtmRe_inv
                Hascii Hm) as (l & Hin & Hl).
    rewrite <- Hex. symmetry. apply existsb_exists. now exists l.
Qed.

(** On ASCII bodies the cancel pattern matches exactly when some line is
    the cancel command. *)
Lemma MatchString_lgtmCancelRe_lines body :
  spec.ascii_body body = true ->
  MatchString lgtm.lgtmCancelRe body =
  existsb spec.cancel_line (spec.body_lines body).
Proof.
  intros Hascii.
  destruct (existsb spec.cancel_line (spec.body_lines body)) eqn:Hex.
  - apply existsb_exists in Hex as (l & Hin & Hl).
    exact (MatchString_cancel_line body l Hin Hl).
  - destruct (MatchString lgtm.lgtmCancelRe body) eqn:Hm; [ | reflexivity ].
    destruct (MatchString_inv lgtm.lgtmCancelRe spec.cancel_line body
                lgtmCancelRe_inv Hascii Hm) as (l & Hin & Hl).
    rewrite <- Hex. symmetry. apply existsb_exists. now exists l.
Qed.

(** The intent of an ASCII body, line by line. *)
Lemma commentWantLGTM_lines body :
  spec.ascii_body body = true ->
  lgtm.commentWantLGTM body =
  if existsb spec.lgtm_line (spec.body_lines body) then Some true
  else if existsb spec.cancel_line (spec.body_lines body) then Some false
  else None.
Proof.
  intros Hascii. unfold lgtm.commentWantLGTM.
  now rewrite MatchString_lgtmRe_lines, MatchString_lgtmCancelRe_lines.
Qed.

(** Outside ASCII: "/lgtm no-issue" spelt with two long s (U+017F) matches
    the affirmative pattern, as in Go. *)
Example long_s_matches :
  MatchString lgtm.lgtmRe
    (String.append "/lgtm no-i"
       (String (ascii_of_nat 197) (String (ascii_of_nat 191)
          (String (ascii_of_nat 197) (String (ascii_of_nat 191) "ue")))))
  = true.
Proof. reflexivity. Qed.

(** ** Intent extraction *)

Lemma commentWantLGTM_struct body :
  lgtm_struct.commentWantLGTM body = lgtm.commentWantLGTM body.
Proof. reflexivity. Qed.

(** A comment that passes the filter is handled by its intent: nothing
    without one; a refusal for the author's own "/lgtm"; [handle]
    otherwise. *)
Lemma handleGenericComment_by_intent F e :
  IsPR e = true -> IssueState e = "open" ->
  Action e = GenericCommentActionCreated ->
  lgtm.handleGenericComment F e =
  match lgtm.commentWantLGTM (Body e) with
  | None => Ret None
  | Some wantLGTM =>
      if String.eqb (Login (EventUser e)) (Login (IssueAuthor e)) && wantLGTM
      then gc (CreateComment (Login (Owner (EventRepo e))) (Name (EventRepo e))
                 (Number e)
                 (F (Body e) (HTMLURL e) (Login (EventUser e))
                    "you cannot LGTM your own PR."))
      else lgtm.handle F wantLGTM (Login (EventUser e)) (Login (IssueAuthor e))
             (EventRepo e) (Assignees e) (Number e) (Body e) (HTMLURL e)
  end.
Proof.
  intros Hpr Hopen Hcreated. unfold lgtm.handleGenericComment.
  rewrite Hpr, Hopen, Hcreated. reflexivity.
Qed.

(** C3, as amended: for a comment event that passes the filter the intent
    is read off the lines of the body, without regard to letter case.  A
    line that is "/lgtm" or "/lgtm no-issue" followed by whitespace only
    gives wantLGTM = true.  A line that is "/lgtm cancel" followed by
    whitespace only gives wantLGTM = false provided the body has no match of
    the affirmative pattern, which is tried first.  A body that matches
    neither pattern makes the handler return nil at once, with no client
    call.  With an intent, the handler goes on to the self-approval guard
    and [handle].  On an ASCII body the three cases are exhaustive: the
    intent is true when some line is the affirmative command, else false
    when some line is the cancel command, else there is none. *)
Theorem comment_intent_by_lines :
  forall (F : string -> string -> string -> string -> string)
         (e : GenericCommentEvent),
    IsPR e = true -> IssueState e = "open" ->
    Action e = GenericCommentActionCreated ->
    (forall l, In l (spec.body_lines (Body e)) -> spec.lgtm_line l = true ->
       lgtm.commentWantLGTM (Body e) = Some true) /\
    (forall l, In l (spec.body_lines (Body e)) -> spec.cancel_line l = true ->
       MatchString lgtm.lgtmRe (Body e) = false ->
       lgtm.commentWantLGTM (Body e) = Some false) /\
    (MatchString lgtm.lgtmRe (Body e) = false ->
     MatchString lgtm.lgtmCancelRe (Body e) = false ->
     lgtm.commentWantLGTM (Body e) = None /\
     forall h, In h (both.handleGenericComment F e) ->
     forall (W : Type) (client : githubClient W) (w : W),
       run client w h = ([], None, w)) /\
    (forall h, In h (both.handleGenericComment F e) ->
     forall wantLGTM, lgtm.commentWantLGTM (Body e) = Some wantLGTM ->
       h = if String.eqb (Login (EventUser e)) (Login (IssueAuthor e))
               && wantLGTM
           then gc (CreateComment (Login (Owner (EventRepo e)))
                      (Name (EventRepo e)) (Number e)
                      (F (Body e) (HTMLURL e) (Login (EventUser e))
                         "you cannot LGTM your own PR."))
           else lgtm.handle F wantLGTM (Login (EventUser e))
                  (Login (IssueAuthor e)) (EventRepo e) (Assignees e)
                  (Number e) (Body e) (HTMLURL e)) /\
    (spec.ascii_body (Body e) = true ->
     lgtm.commentWantLGTM (Body e) =
     if existsb spec.lgtm_line (spec.body_lines (Body e)) then Some true
     else if existsb spec.cancel_line (spec.body_lines (Body e))
          then Some false
          else None).
Proof.
  intros F e Hpr Hopen Hcreated.
  pose proof (handleGenericComment_by_intent F e Hpr Hopen Hcreated) as Hh.
  split; [ | split; [ | split; [ | split ] ] ];
    [ | | | | exact (commentWantLGTM_lines (Body e)) ];
    unfold lgtm.commentWantLGTM in *.
  - intros l Hin Hl. now rewrite (MatchString_lgtm_line (Body e) l Hin Hl).
  - intros l Hin Hl Hno.
    now rewrite Hno, (MatchString_cancel_line (Body e) l Hin Hl).
  - intros Hno Hnc. rewrite Hno, Hnc in *. split; [ reflexivity | ].
    intros h Hin W client w. positional; rewrite Hh; reflexivity.
  - intros h Hin wantLGTM Hwant. positional; rewrite Hh; now rewrite Hwant.
Qed.

Lemma comment_intent_by_lines_witness :
  lgtm.commentWantLGTM ("thanks!" ++ fake.nl ++ "/LGTM Cancel  ")%string
  = Some false.
Proof.
  destruct (comment_intent_by_lines fake.formatResponse
              (fake.comment fake.bob
                 ("thanks!" ++ fake.nl ++ "/LGTM Cancel  ")%string)
              eq_refl eq_refl eq_refl) as (_ & Hcancel & _).
  apply (Hcancel (list_ascii_of_string "/LGTM Cancel  ")).
  - simpl. right. left. reflexivity.
  - reflexivity.
  - reflexivity.
Defined.

(** C3 as it was stated fails: the body made of the two lines "/lgtm" and
    "/lgtm cancel" has a line that is exactly "/lgtm cancel", yet the
    intent is true, and on a labelled pull request the handler removes
    nothing. *)
Lemma cancel_line_does_not_always_cancel :
  In (list_ascii_of_string "/lgtm cancel")
     (spec.body_lines ("/lgtm" ++ fake.nl ++ "/lgtm cancel")%string) /\
  spec.cancel_line (list_ascii_of_string "/lgtm cancel") = true /\
  lgtm.commentWantLGTM ("/lgtm" ++ fake.nl ++ "/lgtm cancel")%string
    <> Some false /\
  trace fake.client fake.labelled
    (lgtm.handleGenericComment fake.formatResponse
       (fake.comment fake.bob ("/lgtm" ++ fake.nl ++ "/lgtm cancel")%string))
  = [EvGetIssueLabels "kubernetes" "test-infra" 5%Z
       ([{| LabelName := "lgtm" |}], None)].
Proof.
  repeat split.
  - simpl. right. left. reflexivity.
  - vm_compute. discriminate.
Qed.

(** C10: when the body has both a line that is the affirmative command and
    a line that is "/lgtm cancel" (more generally, when it matches both
    patterns), the intent is true: the affirmative pattern is tried first.
    For an event that passes the filter the handler then acts on
    wantLGTM = true. *)
Theorem affirmative_takes_precedence :
  forall (F : string -> string -> string -> string -> string)
         (e : GenericCommentEvent),
    (exists l, In l (spec.body_lines (Body e)) /\ spec.lgtm_line l = true) \/
    MatchString lgtm.lgtmRe (Body e) = true ->
    (exists l, In l (spec.body_lines (Body e)) /\ spec.cancel_line l = true) \/
    MatchString lgtm.lgtmCancelRe (Body e) = true ->
    lgtm.commentWantLGTM (Body e) = Some true /\
    lgtm_struct.commentWantLGTM (Body e) = Some true /\
    (IsPR e = true -> IssueState e = "open" ->
     Action e = GenericCommentActionCreated ->
     forall h, In h (both.handleGenericComment F e) ->
       h = if String.eqb (Login (EventUser e)) (Login (IssueAuthor e))
           then gc (CreateComment (Login (Owner (EventRepo e)))
                      (Name (EventRepo e)) (Number e)
                      (F (Body e) (HTMLURL e) (Login (EventUser e))
                         "you cannot LGTM your own PR."))
           else lgtm.handle F true (Login (EventUser e))
                  (Login (IssueAuthor e)) (EventRepo e) (Assignees e)
                  (Number e) (Body e) (HTMLURL e)).
Proof.
  intros F e Hyes Hcancel.
  assert (Hre : MatchString lgtm.lgtmRe (Body e) = true).
  { destruct Hyes as [(l & Hin & Hl) | Hre]; [ | exact Hre ].
    exact (MatchString_lgtm_line (Body e) l Hin Hl). }
  assert (Hwant : lgtm.commentWantLGTM (Body e) = Some true)
    by (unfold lgtm.commentWantLGTM; now rewrite Hre).
  split; [ exact Hwant | split; [ exact Hwant | ] ].
  intros Hpr Hopen Hcreated h Hin.
  positional; rewrite (handleGenericComment_by_intent F e Hpr Hopen Hcreated);
    rewrite Hwant, andb_true_r; reflexivity.
Qed.

Lemma affirmative_takes_precedence_witness :
  lgtm.commentWantLGTM ("/lgtm cancel" ++ fake.nl ++ "/lgtm")%string
  = Some true.
Proof.
  apply (affirmative_takes_precedence fake.formatResponse
           (fake.comment fake.bob
              ("/lgtm cancel" ++ fake.nl ++ "/lgtm")%string)).
  - left. exists (list_ascii_of_string "/lgtm"). split.
    + simpl. right. left. reflexivity.
    + reflexivity.
  - left. exists (list_ascii_of_string "/lgtm cancel"). split.
    + simpl. left. reflexivity.
    + reflexivity.
Defined.

(** ** The self-approval guard *)

(** On the comment path the guard is in place: the author's own "/lgtm" on
    an open pull request gets one comment, "you cannot LGTM your own PR.",
    and nothing else; the author's "/lgtm cancel" goes on to [handle]. *)
Lemma comment_self_lgtm_refused F e :
  IsPR e = true -> IssueState e = "open" ->
  Action e = GenericCommentActionCreated ->
  Login (EventUser e) = Login (IssueAuthor e) ->
  forall h, In h (both.handleGenericComment F e) ->
  (lgtm.commentWantLGTM (Body e) = Some true ->
   forall W (client : githubClient W) w,
   exists rc,
     trace client w h =
       [EvCreateComment (Login (Owner (EventRepo e))) (Name (EventRepo e))
          (Number e)
          (F (Body e) (HTMLURL e) (Login (EventUser e))
             "you cannot LGTM your own PR.") rc] /\
     returned client w h = rc) /\
  (lgtm.commentWantLGTM (Body e) = Some false ->
   h = lgtm.handle F false (Login (EventUser e)) (Login (IssueAuthor e))
         (EventRepo e) (Assignees e) (Number e) (Body e) (HTMLURL e)).
Proof.
  intros Hpr Hopen Hcreated Hself h Hin.
  positional; rewrite (handleGenericComment_by_intent F e Hpr Hopen Hcreated);
    (split; intros Hwant; rewrite Hwant;
     [ intros W client w; rewrite Hself, String.eqb_refl; cbn [andb];
       unfold trace, returned; cbn [run gc];
       destruct (client _ w) as [rc w1]; now exists rc
     | now rewrite andb_false_r ]).
Qed.

(** On the review path there is no guard: an "approve" review goes to
    [handle] with wantLGTM = true whoever the reviewer is. *)
Lemma review_approve_reaches_handle F e :
  ReviewState (RevReview e) = "approve" ->
  forall h, In h (both.handlePullRequestReview F e) ->
  h = lgtm.handle F true (Login (ReviewUser (RevReview e)))
        (Login (PRUser (RevPullRequest e))) (RevRepo e)
        (PRAssignees (RevPullRequest e)) (PRNumber (RevPullRequest e))
        (ReviewBody (RevReview e)) (ReviewHTMLURL (RevReview e)).
Proof.
  intros Hstate h Hin.
  positional; unfold lgtm.handlePullRequestReview, lgtm.reviewWantLGTM;
    rewrite Hstate; reflexivity.
Qed.

(** C1 fails on the review path: [alice] approves her own pull request by a
    review; in both revisions the handler assigns her, queries the labels
    and adds "lgtm", and posts no comment. *)
Theorem review_self_approval_not_refused :
  Login (ReviewUser (RevReview (fake.review fake.alice "approve"))) =
  Login (PRUser (RevPullRequest (fake.review fake.alice "approve"))) /\
  lgtm.reviewWantLGTM (ReviewState (RevReview (fake.review fake.alice "approve")))
    = Some true /\
  trace fake.client fake.fresh
    (lgtm.handlePullRequestReview fake.formatResponse
       (fake.review fake.alice "approve")) =
    [ EvAssignIssue "kubernetes" "test-infra" 5%Z ["alice"] None;
      EvGetIssueLabels "kubernetes" "test-infra" 5%Z ([], None);
      EvAddLabel "kubernetes" "test-infra" 5%Z "lgtm" None ] /\
  trace fake.client fake.fresh
    (lgtm_struct.handlePullRequestReview fake.formatResponse
       (fake.review fake.alice "approve")) =
    [ EvAssignIssue "kubernetes" "test-infra" 5%Z ["alice"] None;
      EvGetIssueLabels "kubernetes" "test-infra" 5%Z ([], None);
      EvAddLabel "kubernetes" "test-infra" 5%Z "lgtm" None ] /\
  calls isCreateComment
    (trace fake.client fake.fresh
       (lgtm.handlePullRequestReview fake.formatResponse
          (fake.review fake.alice "approve"))) = 0.
Proof. repeat split. Qed.

(** * Further properties of the handlers *)

(** ** Case analysis of the event handlers *)

(** A property of the comment handler follows from three cases: the event
    is ignored; the author's own "/lgtm" is refused; [handle] runs. *)
Lemma handleGenericComment_cases F e (P : prog error -> Prop) :
  P (Ret None) ->
  (IsPR e = true -> IssueState e = "open" ->
   Action e = GenericCommentActionCreated ->
   lgtm.commentWantLGTM (Body e) = Some true ->
   Login (EventUser e) = Login (IssueAuthor e) ->
   P (gc (CreateComment (Login (Owner (EventRepo e))) (Name (EventRepo e))
            (Number e)
            (F (Body e) (HTMLURL e) (Login (EventUser e))
               "you cannot LGTM your own PR.")))) ->
  (forall wantLGTM,
      IsPR e = true -> IssueState e = "open" ->
      Action e = GenericCommentActionCreated ->
      lgtm.commentWantLGTM (Body e) = Some wantLGTM ->
      (wantLGTM = true -> Login (EventUser e) <> Login (IssueAuthor e)) ->
      P (lgtm.handle F wantLGTM (Login (EventUser e)) (Login (IssueAuthor e))
           (EventRepo e) (Assignees e) (Number e) (Body e) (HTMLURL e))) ->
  forall h, In h (both.handleGenericComment F e) -> P h.
Proof.
  intros Hnone Hrefuse Hhandle h Hin.
  assert (Hpos : P (lgtm.handleGenericComment F e)).
  { unfold lgtm.handleGenericComment.
    destruct (IsPR e) eqn:Hpr; cbn [negb orb]; [ | exact Hnone ].
    destruct (String.eqb_spec (IssueState e) "open") as [Hopen | _];
      cbn [negb orb]; [ | exact Hnone ].
    destruct (String.eqb_spec (Action e) GenericCommentActionCreated)
      as [Hcreated | _]; cbn [negb orb]; [ | exact Hnone ].
    destruct (lgtm.commentWantLGTM (Body e)) as [wantLGTM | ] eqn:Hwant;
      [ | exact Hnone ].
    destruct (String.eqb_spec (Login (EventUser e)) (Login (IssueAuthor e)))
      as [Hself | Hother]; cbn [andb].
    - destruct wantLGTM.
      + now apply Hrefuse.
      + apply Hhandle; auto. discriminate.
    - apply Hhandle; auto. }
  destruct Hin as [<- | [<- | []]];
    [ | rewrite handleGenericComment_struct_positional ]; exact Hpos.
Qed.

(** A property of the review handler follows from two cases: the review is
    ignored; [handle] runs with the intent of its state. *)
Lemma handlePullRequestReview_cases F e (P : prog error -> Prop) :
  P (Ret None) ->
  (forall wantLGTM,
      (wantLGTM = true -> ReviewState (RevReview e) = "approve") ->
      (wantLGTM = false -> ReviewState (RevReview e) = "changes_requested") ->
      P (lgtm.handle F wantLGTM (Login (ReviewUser (RevReview e)))
           (Login (PRUser (RevPullRequest e))) (RevRepo e)
           (PRAssignees (RevPullRequest e)) (PRNumber (RevPullRequest e))
           (ReviewBody (RevReview e)) (ReviewHTMLURL (RevReview e)))) ->
  forall h, In h (both.handlePullRequestReview F e) -> P h.
Proof.
  intros Hnone Hhandle h Hin.
  assert (Hpos : P (lgtm.handlePullRequestReview F e)).
  { unfold lgtm.handlePullRequestReview, lgtm.reviewWantLGTM.
    destruct (String.eqb_spec (ReviewState (RevReview e)) "approve")
      as [Happrove | _].
    - apply Hhandle; [ auto | discriminate ].
    - destruct (String.eqb_spec (ReviewState (RevReview e))
                  "changes_requested") as [Hchanges | _].
      + apply Hhandle; [ discriminate | auto ].
      + exact Hnone. }
  destruct Hin as [<- | [<- | []]];
    [ | rewrite handlePullRequestReview_struct_positional ]; exact Hpos.
Qed.

(** The run of the refusal: one comment, whose result is returned. *)
Lemma comment_run W (client : githubClient W) w o r n text :
  exists rc : error,
    @trace W error client w (gc (CreateComment o r n text))
      = [EvCreateComment o r n text rc] /\
    @returned W error client w (gc (CreateComment o r n text)) = rc.
Proof.
  unfold trace, returned. cbn [run gc].
  destruct (client (CreateComment o r n text) w) as [rc w1].
  now exists rc.
Qed.

(** The traces of [handle], case by case, with the result in place. *)
Ltac handle_cases client w h :=
  let Hshape := fresh "Hshape" in
  destruct (handle_run_cases _ _ _ _ _ _ _ _ _ _ client w _ _ _
              (run_eta _ _ client w h))
    as [(?err & ?w1 & ?m & ?w2 & ?Hnot & ?Hassign & ?Hmember & ?Hcomment
         & Hshape)
       | (?pre & ?r & ?post
          & [[-> ?Hin] | (-> & ?Hnot & ?w1 & ?Hassign)]
          & Hshape
          & [(?Hhas & ?Hwant & ->)
            | [(?Hhas & ?Hwant & ->) | (?Hhas & -> & ?Hres)]])];
  cbn [app] in Hshape; rewrite ?Hshape.

(** ** What the calls are about *)

Lemma addresses_self org repoName number author :
  (forall r, obs.addresses org repoName number author
               (EvIsMember org author r) = true) /\
  (forall r, obs.addresses org repoName number author
               (EvAddLabel org repoName number "lgtm" r) = true) /\
  (forall r, obs.addresses org repoName number author
               (EvAssignIssue org repoName number [author] r) = true) /\
  (forall t r, obs.addresses org repoName number author
               (EvCreateComment org repoName number t r) = true) /\
  (forall r, obs.addresses org repoName number author
               (EvRemoveLabel org repoName number "lgtm" r) = true) /\
  (forall r, obs.addresses org repoName number author
               (EvGetIssueLabels org repoName number r) = true).
Proof.
  repeat split; intros; cbn [obs.addresses];
    rewrite ?String.eqb_refl, ?Z.eqb_refl; reflexivity.
Qed.

Lemma handle_addresses F wantLGTM author issueAuthor repo assignees number
    body htmlURL W (client : githubClient W) w :
  forallb (obs.addresses (Login (Owner repo)) (Name repo) number author)
    (trace client w
       (lgtm.handle F wantLGTM author issueAuthor repo assignees number body
          htmlURL)) = true.
Proof.
  destruct (addresses_self (Login (Owner repo)) (Name repo) number author)
    as (Hm & Ha & Hs & Hc & Hr & Hq).
  match goal with |- context [trace client w ?p] => set (h := p) end.
  handle_cases client w h; cbn [forallb];
    rewrite ?Hm, ?Ha, ?Hs, ?Hc, ?Hr, ?Hq; reflexivity.
Qed.

(** X1: every call a handler makes is about the pull request of the event
    and the acting user: the repository and number are those of the event,
    the only login assigned or asked about is the acting user's, and the
    only label added or removed is "lgtm". *)
Theorem calls_address_the_event :
  forall (F : string -> string -> string -> string -> string)
         (W : Type) (client : githubClient W) (w : W),
    (forall wantLGTM pr h, In h (both.handle F wantLGTM pr) ->
       forallb (obs.addresses (Login (Owner (lgtm_struct.repo pr)))
                  (Name (lgtm_struct.repo pr)) (lgtm_struct.number pr)
                  (lgtm_struct.author pr))
         (trace client w h) = true) /\
    (forall e h, In h (both.handleGenericComment F e) ->
       forallb (obs.addresses (Login (Owner (EventRepo e)))
                  (Name (EventRepo e)) (Number e) (Login (EventUser e)))
         (trace client w h) = true) /\
    (forall e h, In h (both.handlePullRequestReview F e) ->
       forallb (obs.addresses (Login (Owner (RevRepo e))) (Name (RevRepo e))
                  (PRNumber (RevPullRequest e))
                  (Login (ReviewUser (RevReview e))))
         (trace client w h) = true).
Proof.
  intros F W client w. split; [ | split ].
  - intros wantLGTM pr h Hin. pattern h.
    apply (fun HP => both_handle_ind F wantLGTM pr _ HP h Hin).
    apply handle_addresses.
  - intros e h Hin. pattern h.
    apply (fun H1 H2 H3 => handleGenericComment_cases F e _ H1 H2 H3 h Hin).
    + reflexivity.
    + intros _ _ _ _ _.
      destruct (comment_run W client w (Login (Owner (EventRepo e)))
                  (Name (EventRepo e)) (Number e)
                  (F (Body e) (HTMLURL e) (Login (EventUser e))
                     "you cannot LGTM your own PR.")) as (rc & -> & _).
      cbn [forallb obs.addresses].
      now rewrite !String.eqb_refl, Z.eqb_refl.
    + intros wantLGTM _ _ _ _ _. apply handle_addresses.
  - intros e h Hin. pattern h.
    apply (fun H1 H2 => handlePullRequestReview_cases F e _ H1 H2 h Hin).
    + reflexivity.
    + intros wantLGTM _ _. apply handle_addresses.
Qed.

Lemma calls_address_the_event_witness :
  forallb (obs.addresses "kubernetes" "test-infra" 5%Z "mallory")
    (trace fake.client fake.fresh
       (lgtm_struct.handleGenericComment fake.formatResponse
          (fake.comment fake.mallory "/lgtm"))) = true.
Proof.
  destruct (calls_address_the_event fake.formatResponse fake.service
              fake.client fake.fresh) as (_ & Hcomment & _).
  apply (Hcomment (fake.comment fake.mallory "/lgtm")).
  simpl. right. left. reflexivity.
Defined.

(** ** Lifting a property of runs from [handle] to the event handlers *)

Lemma lift_to_handlers F W (client : githubClient W) w
    (Q : list event -> error -> Prop) :
  Q [] None ->
  (forall o r n t rc, Q [EvCreateComment o r n t rc] rc) ->
  (forall wantLGTM author issueAuthor repo assignees number body htmlURL,
      Q (trace client w
           (lgtm.handle F wantLGTM author issueAuthor repo assignees number
              body htmlURL))
        (returned client w
           (lgtm.handle F wantLGTM author issueAuthor repo assignees number
              body htmlURL))) ->
  (forall wantLGTM pr h, In h (both.handle F wantLGTM pr) ->
     Q (trace client w h) (returned client w h)) /\
  (forall e h, In h (both.handleGenericComment F e) ->
     Q (trace client w h) (returned client w h)) /\
  (forall e h, In h (both.handlePullRequestReview F e) ->
     Q (trace client w h) (returned client w h)).
Proof.
  intros Hnone Hcomment Hhandle. split; [ | split ].
  - intros wantLGTM pr h Hin. pattern h.
    apply (fun HP => both_handle_ind F wantLGTM pr _ HP h Hin).
    apply Hhandle.
  - intros e h Hin. pattern h.
    apply (fun H1 H2 H3 => handleGenericComment_cases F e _ H1 H2 H3 h Hin).
    + exact Hnone.
    + intros _ _ _ _ _.
      destruct (comment_run W client w (Login (Owner (EventRepo e)))
                  (Name (EventRepo e)) (Number e)
                  (F (Body e) (HTMLURL e) (Login (EventUser e))
                     "you cannot LGTM your own PR.")) as (rc & -> & ->).
      apply Hcomment.
    + intros wantLGTM _ _ _ _ _. apply Hhandle.
  - intros e h Hin. pattern h.
    apply (fun H1 H2 => handlePullRequestReview_cases F e _ H1 H2 h Hin).
    + exact Hnone.
    + intros wantLGTM _ _. apply Hhandle.
Qed.

(** ** How much a handler does *)

(** X2: whatever the client answers, one event leads to at most one write
    (a comment, a label added or a label removed, never two of them), at
    most one AssignIssue, one IsMember and one GetIssueLabels call, and at
    most three calls in all. *)
Theorem at_most_one_write :
  forall (F : string -> string -> string -> string -> string)
         (W : Type) (client : githubClient W) (w : W),
    let bounded (tr : list event) :=
      calls isCreateComment tr + calls isAddLabel tr + calls isRemoveLabel tr
        <= 1 /\
      calls isAssignIssue tr <= 1 /\
      calls obs.isIsMember tr <= 1 /\
      calls isGetIssueLabels tr <= 1 /\
      List.length tr <= 3 in
    (forall wantLGTM pr h, In h (both.handle F wantLGTM pr) ->
       bounded (trace client w h)) /\
    (forall e h, In h (both.handleGenericComment F e) ->
       bounded (trace client w h)) /\
    (forall e h, In h (both.handlePullRequestReview F e) ->
       bounded (trace client w h)).
Proof.
  intros F W client w bounded.
  apply (lift_to_handlers F W client w (fun tr _ => bounded tr));
    unfold bounded, calls.
  - cbn. lia.
  - intros. cbn. lia.
  - intros.
    match goal with |- context [trace client w ?p] => set (h := p) end.
    handle_cases client w h; cbn; lia.
Qed.

Lemma at_most_one_write_witness :
  List.length
    (trace fake.client fake.labelled
       (lgtm.handlePullRequestReview fake.formatResponse
          (fake.review fake.alice "changes_requested"))) <= 3.
Proof.
  destruct (at_most_one_write fake.formatResponse fake.service fake.client
              fake.labelled) as (_ & _ & Hreview).
  apply (Hreview (fake.review fake.alice "changes_requested")).
  simpl. left. reflexivity.
Defined.

(** ** The error a handler returns *)

(** X3: the error a handler returns is the error of its last call when
    that call writes (CreateComment, AddLabel, RemoveLabel), and nil
    otherwise.  So a failure of AssignIssue, IsMember or GetIssueLabels is
    never returned, and a run whose writes all succeed returns nil. *)
Theorem returned_error_is_last_write :
  forall (F : string -> string -> string -> string -> string)
         (W : Type) (client : githubClient W) (w : W),
    (forall wantLGTM pr h, In h (both.handle F wantLGTM pr) ->
       returned client w h = obs.lastWriteError (trace client w h)) /\
    (forall e h, In h (both.handleGenericComment F e) ->
       returned client w h = obs.lastWriteError (trace client w h)) /\
    (forall e h, In h (both.handlePullRequestReview F e) ->
       returned client w h = obs.lastWriteError (trace client w h)).
Proof.
  intros F W client w.
  apply (lift_to_handlers F W client w
           (fun tr res => res = obs.lastWriteError tr)).
  - reflexivity.
  - reflexivity.
  - intros.
    match goal with |- context [trace client w ?p] => set (h := p) end.
    handle_cases client w h; cbn; auto.
Qed.

Lemma returned_error_is_last_write_witness :
  returned fake.client fake.fresh
    (lgtm.handleGenericComment fake.formatResponse
       (fake.comment fake.mallory "/lgtm")) = None.
Proof.
  destruct (returned_error_is_last_write fake.formatResponse fake.service
              fake.client fake.fresh) as (_ & Hcomment & _).
  rewrite (Hcomment (fake.comment fake.mallory "/lgtm")
                    _ (or_introl eq_refl)).
  reflexivity.
Defined.

(** ** When the label is touched *)

Lemma handle_mutation_direction F wantLGTM author issueAuthor repo assignees
    number body htmlURL W (client : githubClient W) w :
  let tr := trace client w
              (lgtm.handle F wantLGTM author issueAuthor repo assignees
                 number body htmlURL) in
  (existsb isAddLabel tr = true -> wantLGTM = true) /\
  (existsb isRemoveLabel tr = true -> wantLGTM = false).
Proof.
  intros tr. subst tr.
  match goal with |- context [trace client w ?p] => set (h := p) end.
  handle_cases client w h; cbn; split; intros; congruence.
Qed.

(** X4: a comment event gets the label added only if it is a new comment on
    an open pull request, its body matches the affirmative pattern, and the
    commenter is not the author of the pull request. *)
Theorem comment_adds_only_on_lgtm :
  forall (F : string -> string -> string -> string -> string)
         (e : GenericCommentEvent) (W : Type) (client : githubClient W)
         (w : W) h,
    In h (both.handleGenericComment F e) ->
    existsb isAddLabel (trace client w h) = true ->
    IsPR e = true /\ IssueState e = "open" /\
    Action e = GenericCommentActionCreated /\
    regexp.MatchString lgtm.lgtmRe (Body e) = true /\
    Login (EventUser e) <> Login (IssueAuthor e).
Proof.
  intros F e W client w h Hin. pattern h.
  apply (fun H1 H2 H3 => handleGenericComment_cases F e _ H1 H2 H3 h Hin).
  - discriminate.
  - intros _ _ _ _ _.
    destruct (comment_run W client w (Login (Owner (EventRepo e)))
                (Name (EventRepo e)) (Number e)
                (F (Body e) (HTMLURL e) (Login (EventUser e))
                   "you cannot LGTM your own PR.")) as (rc & -> & _).
    discriminate.
  - intros wantLGTM Hpr Hopen Hcreated Hwant Hother Hadd.
    apply handle_mutation_direction in Hadd. subst wantLGTM.
    repeat split; auto.
    unfold lgtm.commentWantLGTM in Hwant.
    destruct (regexp.MatchString lgtm.lgtmRe (Body e)); [ reflexivity | ].
    destruct (regexp.MatchString lgtm.lgtmCancelRe (Body e)); discriminate.
Qed.

Lemma comment_adds_only_on_lgtm_witness :
  Login (EventUser (fake.comment fake.bob "/lgtm")) <>
  Login (IssueAuthor (fake.comment fake.bob "/lgtm")).
Proof.
  apply (comment_adds_only_on_lgtm fake.formatResponse
           (fake.comment fake.bob "/lgtm") fake.service fake.client
           fake.fresh
           (lgtm.handleGenericComment fake.formatResponse
              (fake.comment fake.bob "/lgtm"))).
  - simpl. left. reflexivity.
  - reflexivity.
Defined.

(** X5: a comment event gets the label removed only if it is a new comment
    on an open pull request and its body matches the cancel pattern and not
    the affirmative one. *)
Theorem comment_removes_only_on_cancel :
  forall (F : string -> string -> string -> string -> string)
         (e : GenericCommentEvent) (W : Type) (client : githubClient W)
         (w : W) h,
    In h (both.handleGenericComment F e) ->
    existsb isRemoveLabel (trace client w h) = true ->
    IsPR e = true /\ IssueState e = "open" /\
    Action e = GenericCommentActionCreated /\
    regexp.MatchString lgtm.lgtmRe (Body e) = false /\
    regexp.MatchString lgtm.lgtmCancelRe (Body e) = true.
Proof.
  intros F e W client w h Hin. pattern h.
  apply (fun H1 H2 H3 => handleGenericComment_cases F e _ H1 H2 H3 h Hin).
  - discriminate.
  - intros _ _ _ _ _.
    destruct (comment_run W client w (Login (Owner (EventRepo e)))
                (Name (EventRepo e)) (Number e)
                (F (Body e) (HTMLURL e) (Login (EventUser e))
                   "you cannot LGTM your own PR.")) as (rc & -> & _).
    discriminate.
  - intros wantLGTM Hpr Hopen Hcreated Hwant _ Hremove.
    apply handle_mutation_direction in Hremove. subst wantLGTM.
    repeat split; auto;
      unfold lgtm.commentWantLGTM in Hwant;
      destruct (regexp.MatchString lgtm.lgtmRe (Body e));
      try discriminate; try reflexivity;
      destruct (regexp.MatchString lgtm.lgtmCancelRe (Body e));
      try discriminate; reflexivity.
Qed.

Lemma comment_removes_only_on_cancel_witness :
  regexp.MatchString lgtm.lgtmRe
    (Body (fake.comment fake.alice "/lgtm cancel")) = false.
Proof.
  apply (comment_removes_only_on_cancel fake.formatResponse
           (fake.comment fake.alice "/lgtm cancel") fake.service fake.client
           fake.labelled
           (lgtm.handleGenericComment fake.formatResponse
              (fake.comment fake.alice "/lgtm cancel"))).
  - simpl. left. reflexivity.
  - reflexivity.
Defined.

(** X6: a review gets the label added only if its state is "approve", and
    removed only if its state is "changes_requested". *)
Theorem review_mutation_follows_state :
  forall (F : string -> string -> string -> string -> string)
         (e : ReviewEvent) (W : Type) (client : githubClient W) (w : W) h,
    In h (both.handlePullRequestReview F e) ->
    (existsb isAddLabel (trace client w h) = true ->
     ReviewState (RevReview e) = "approve") /\
    (existsb isRemoveLabel (trace client w h) = true ->
     ReviewState (RevReview e) = "changes_requested").
Proof.
  intros F e W client w h Hin. pattern h.
  apply (fun H1 H2 => handlePullRequestReview_cases F e _ H1 H2 h Hin).
  - split; discriminate.
  - intros wantLGTM Happrove Hchanges.
    split; intros Hcall; apply handle_mutation_direction in Hcall; auto.
Qed.

Lemma review_mutation_follows_state_witness :
  existsb isRemoveLabel
    (trace fake.client fake.labelled
       (lgtm.handlePullRequestReview fake.formatResponse
          (fake.review fake.bob "changes_requested"))) = true /\
  ReviewState (RevReview (fake.review fake.bob "changes_requested"))
    = "changes_requested".
Proof.
  split; [ reflexivity | ].
  apply (review_mutation_follows_state fake.formatResponse
           (fake.review fake.bob "changes_requested") fake.service
           fake.client fake.labelled
           (lgtm.handlePullRequestReview fake.formatResponse
              (fake.review fake.bob "changes_requested"))).
  - simpl. left. reflexivity.
  - reflexivity.
Defined.

(** ** Who gets assigned, and when the handler replies *)

(** X7: [handle] assigns exactly the users who are not assignees yet.  For
    an assignee the first call is the label query, and there is no
    AssignIssue, IsMember or CreateComment call; for anyone else the first
    call is AssignIssue with that user alone. *)
Theorem assignment_only_for_non_assignees :
  forall (F : string -> string -> string -> string -> string)
         (wantLGTM : bool) (pr : lgtm_struct.state)
         (W : Type) (client : githubClient W) (w : W) h,
    let org := Login (Owner (lgtm_struct.repo pr)) in
    let repoName := Name (lgtm_struct.repo pr) in
    let number := lgtm_struct.number pr in
    let author := lgtm_struct.author pr in
    In h (both.handle F wantLGTM pr) ->
    (In author (map Login (lgtm_struct.assignees pr)) ->
     (exists r rest,
         trace client w h = EvGetIssueLabels org repoName number r :: rest) /\
     calls isAssignIssue (trace client w h) = 0 /\
     calls obs.isIsMember (trace client w h) = 0 /\
     calls isCreateComment (trace client w h) = 0) /\
    (~ In author (map Login (lgtm_struct.assignees pr)) ->
     exists r rest,
       trace client w h = EvAssignIssue org repoName number [author] r :: rest).
Proof.
  intros F wantLGTM pr W client w h org repoName number author Hin.
  pattern h. apply (fun HP => both_handle_ind F wantLGTM pr _ HP h Hin).
  clear h Hin.
  match goal with |- context [trace client w ?p] => set (h := p) end.
  handle_cases client w h; (split; [ intros Hyes | intros Hno ]);
    try contradiction; unfold calls; cbn; eauto 6.
Qed.

Lemma assignment_only_for_non_assignees_witness :
  calls isAssignIssue
    (trace fake.client fake.fresh
       (lgtm_struct.handle fake.formatResponse true
          (fake.request fake.bob "/lgtm"))) = 0.
Proof.
  destruct (assignment_only_for_non_assignees fake.formatResponse true
              (fake.request fake.bob "/lgtm") fake.service fake.client
              fake.fresh
              (lgtm_struct.handle fake.formatResponse true
                 (fake.request fake.bob "/lgtm"))
              (or_intror (or_introl eq_refl))) as (Hyes & _).
  destruct Hyes as (_ & Hnone & _).
  - simpl. left. reflexivity.
  - exact Hnone.
Defined.

(** X8: [handle] posts a comment exactly when the assignment fails, and
    asks for the membership exactly then: in every run the numbers of
    CreateComment calls, of IsMember calls and of failed AssignIssue calls
    are the same (0 or 1).  It never comments on a run that reaches the
    label query. *)
Theorem reply_exactly_on_failed_assignment :
  forall (F : string -> string -> string -> string -> string)
         (wantLGTM : bool) (pr : lgtm_struct.state)
         (W : Type) (client : githubClient W) (w : W) h,
    In h (both.handle F wantLGTM pr) ->
    calls isCreateComment (trace client w h)
      = calls obs.isFailedAssign (trace client w h) /\
    calls obs.isIsMember (trace client w h)
      = calls obs.isFailedAssign (trace client w h) /\
    calls isCreateComment (trace client w h)
      + calls isGetIssueLabels (trace client w h) = 1.
Proof.
  intros F wantLGTM pr W client w h Hin.
  pattern h. apply (fun HP => both_handle_ind F wantLGTM pr _ HP h Hin).
  clear h Hin.
  match goal with |- context [trace client w ?p] => set (h := p) end.
  handle_cases client w h; unfold calls; cbn; auto.
Qed.

Lemma reply_exactly_on_failed_assignment_witness :
  calls isCreateComment
    (trace fake.client fake.fresh
       (lgtm.handle fake.formatResponse true "mallory" "alice"
          fake.kubernetes [fake.bob] 5%Z "/lgtm"
          "https://github.com/kubernetes/test-infra/pull/5#c1"))
  = calls obs.isFailedAssign
      (trace fake.client fake.fresh
         (lgtm.handle fake.formatResponse true "mallory" "alice"
            fake.kubernetes [fake.bob] 5%Z "/lgtm"
            "https://github.com/kubernetes/test-infra/pull/5#c1")).
Proof.
  apply (reply_exactly_on_failed_assignment fake.formatResponse true
           (fake.request fake.mallory "/lgtm") fake.service fake.client
           fake.fresh
           (lgtm.handle fake.formatResponse true "mallory" "alice"
              fake.kubernetes [fake.bob] 5%Z "/lgtm"
              "https://github.com/kubernetes/test-infra/pull/5#c1")
           (or_introl eq_refl)).
Defined.

(** ** Commands begin their line *)

Lemma lines_cons_head c s :
  Ascii.eqb c newline = false ->
  exists l ls, spec.lines (c :: s) = (c :: l) :: ls.
Proof.
  intros Hc. cbn [spec.lines]. rewrite Hc.
  destruct (spec.lines s) as [ | l ls]; eauto.
Qed.

(** A pattern whose matches begin a line with the byte [first] matches
    only texts that have a line beginning with [first]. *)
Lemma MatchString_first_byte r first body :
  Ascii.eqb first newline = false ->
  (forall prev s,
      rmatch r prev s (fun _ _ => true) = true ->
      at_begin_line prev = true /\ exists s', s = first :: s') ->
  MatchString r body = true ->
  exists l, In (first :: l) (spec.body_lines body).
Proof.
  unfold MatchString, spec.body_lines. intros Hfirst Hr H.
  apply search_inv in H as (pre & rest & -> & H).
  apply Hr in H as (Hprev & s' & ->).
  destruct (lines_cons_head first s' Hfirst) as (l & ls & Hlines).
  exists l.
  apply begin_line_after in Hprev as [-> | (pre' & ->)].
  - cbn [app]. rewrite Hlines. now left.
  - rewrite <- app_assoc. cbn [app].
    destruct (lines_after_newline (first :: l) (first :: s') pre')
      as (l0 & ls0 & -> & Hin).
    + rewrite Hlines. now left.
    + now right.
Qed.

Lemma lgtmRe_first_byte prev s :
  rmatch lgtm.lgtmRe prev s (fun _ _ => true) = true ->
  at_begin_line prev = true /\ exists s', s = "/"%char :: s'.
Proof.
  unfold lgtm.lgtmRe, literal_fold. cbn [list_ascii_of_string lits_fold].
  change (lit_fold "/") with (Byte "/"). cbn [rmatch].
  intros H. apply andb_prop in H as [Hprev H]. split; [ exact Hprev | ].
  destruct s as [ | c s]; [ discriminate | ].
  apply andb_prop in H as [Hc _]. apply Ascii.eqb_eq in Hc as ->.
  now exists s.
Qed.

Lemma lgtmCancelRe_first_byte prev s :
  rmatch lgtm.lgtmCancelRe prev s (fun _ _ => true) = true ->
  at_begin_line prev = true /\ exists s', s = "/"%char :: s'.
Proof.
  unfold lgtm.lgtmCancelRe, literal_fold.
  cbn [list_ascii_of_string lits_fold].
  change (lit_fold "/") with (Byte "/"). cbn [rmatch].
  intros H. apply andb_prop in H as [Hprev H]. split; [ exact Hprev | ].
  destruct s as [ | c s]; [ discriminate | ].
  apply andb_prop in H as [Hc _]. apply Ascii.eqb_eq in Hc as ->.
  now exists s.
Qed.

Lemma no_slash_line_no_match r body :
  (forall prev s,
      rmatch r prev s (fun _ _ => true) = true ->
      at_begin_line prev = true /\ exists s', s = "/"%char :: s') ->
  existsb obs.slash_line (spec.body_lines body) = false ->
  MatchString r body = false.
Proof.
  intros Hr Hnone. destruct (MatchString r body) eqn:Hm; [ | reflexivity ].
  destruct (MatchString_first_byte r "/" body eq_refl Hr Hm) as (l & Hin).
  rewrite <- Hnone. symmetry. apply existsb_exists.
  exists ("/"%char :: l). split; [ exact Hin | reflexivity ].
Qed.

(** X9: a comment none of whose lines begins with a slash has no intent,
    whatever else it contains (in any encoding): the comment handler makes
    no call and returns nil.  So a command that is quoted, indented or
    preceded by other text on its line does nothing. *)
Theorem no_slash_line_no_action :
  forall (F : string -> string -> string -> string -> string)
         (e : GenericCommentEvent),
    existsb obs.slash_line (spec.body_lines (Body e)) = false ->
    lgtm.commentWantLGTM (Body e) = None /\
    lgtm_struct.commentWantLGTM (Body e) = None /\
    forall h, In h (both.handleGenericComment F e) ->
    forall (W : Type) (client : githubClient W) (w : W),
      run client w h = ([], None, w).
Proof.
  intros F e Hnone.
  assert (Hwant : lgtm.commentWantLGTM (Body e) = None).
  { unfold lgtm.commentWantLGTM.
    rewrite (no_slash_line_no_match _ _ lgtmRe_first_byte Hnone).
    now rewrite (no_slash_line_no_match _ _ lgtmCancelRe_first_byte Hnone). }
  split; [ exact Hwant | split; [ exact Hwant | ] ].
  intros h Hin W client w. pattern h.
  apply (fun H1 H2 H3 => handleGenericComment_cases F e _ H1 H2 H3 h Hin).
  - reflexivity.
  - intros _ _ _ Hsome. congruence.
  - intros wantLGTM _ _ _ Hsome. congruence.
Qed.

Lemma no_slash_line_no_action_witness :
  lgtm.commentWantLGTM ("> /lgtm" ++ fake.nl ++ " /lgtm cancel")%string
  = None.
Proof.
  apply (no_slash_line_no_action fake.formatResponse
           (fake.comment fake.bob
              ("> /lgtm" ++ fake.nl ++ " /lgtm cancel")%string)).
  reflexivity.
Defined.

(** ** The cancel command is not an approval *)

Lemma strip_nocase_app_eq p1 p2 :
  forall s,
    spec.strip_nocase (p1 ++ p2) s =
    match spec.strip_nocase p1 s with
    | Some mid => spec.strip_nocase p2 mid
    | None => None
    end.
Proof.
  induction p1 as [ | a p1 IH]; intros s; cbn [app].
  - reflexivity.
  - cbn. destruct s as [ | c s]; [ reflexivity | ].
    destruct (spec.eqb_nocase a c); [ apply IH | reflexivity ].
Qed.

(** No line is both the cancel command and the affirmative command. *)
Lemma cancel_line_not_lgtm_line l :
  spec.cancel_line l = true -> spec.lgtm_line l = false.
Proof.
  unfold spec.cancel_line, spec.lgtm_line, spec.command_line.
  change (list_ascii_of_string "/lgtm cancel")
    with (list_ascii_of_string "/lgtm" ++ list_ascii_of_string " cancel")%list.
  change (list_ascii_of_string "/lgtm no-issue")
    with (list_ascii_of_string "/lgtm" ++ list_ascii_of_string " no-issue")%list.
  rewrite !strip_nocase_app_eq.
  destruct (spec.strip_nocase (list_ascii_of_string "/lgtm") l)
    as [mid | ]; [ | discriminate ].
  destruct mid as [ | c5 [ | c6 mid]];
    cbn [list_ascii_of_string spec.strip_nocase forallb];
    try discriminate;
    destruct (spec.eqb_nocase " " c5); try discriminate.
  unfold spec.eqb_nocase at 1.
  change (to_lower "c") with "c"%char. change (to_upper "c") with "C"%char.
  destruct (Ascii.eqb_spec c6 "c") as [-> | _];
    [ intros _; now rewrite andb_false_r | ].
  destruct (Ascii.eqb_spec c6 "C") as [-> | _];
    [ intros _; now rewrite andb_false_r | discriminate ].
Qed.

Lemma strip_nocase_first a p l rest :
  spec.strip_nocase (a :: p) l = Some rest ->
  exists c l', l = c :: l' /\ spec.eqb_nocase a c = true.
Proof.
  cbn. destruct l as [ | c l']; [ discriminate | ].
  destruct (spec.eqb_nocase a c) eqn:Hc; [ | discriminate ].
  intros _. now exists c, l'.
Qed.

Lemma lgtm_line_slash_line l :
  spec.lgtm_line l = true -> obs.slash_line l = true.
Proof.
  assert (Hcmd : forall cmd,
    spec.command_line (String "/" cmd) l = true -> obs.slash_line l = true).
  { intros cmd. unfold spec.command_line. cbn [list_ascii_of_string].
    destruct (spec.strip_nocase _ l) as [rest | ] eqn:Hs; [ | discriminate ].
    intros _. apply strip_nocase_first in Hs as (c & l' & -> & Hc).
    unfold spec.eqb_nocase in Hc.
    change (to_lower "/") with "/"%char in Hc.
    change (to_upper "/") with "/"%char in Hc.
    rewrite orb_diag in Hc. exact Hc. }
  unfold spec.lgtm_line. intros H. apply orb_prop in H as [H | H];
    exact (Hcmd _ H).
Qed.

(** X10: on an ASCII body in which some line is the cancel command and
    every line that begins with a slash is the cancel command, the intent
    is false: "/lgtm cancel" is never read as "/lgtm" followed by
    something, and text on the other lines does not matter. *)
Theorem cancel_only_body_cancels :
  forall body : string,
    spec.ascii_body body = true ->
    existsb spec.cancel_line (spec.body_lines body) = true ->
    forallb (fun l => negb (obs.slash_line l) || spec.cancel_line l)
      (spec.body_lines body) = true ->
    lgtm.commentWantLGTM body = Some false /\
    lgtm_struct.commentWantLGTM body = Some false.
Proof.
  intros body Hascii Hcancel Hall.
  assert (Hwant : lgtm.commentWantLGTM body = Some false).
  { rewrite (commentWantLGTM_lines body Hascii), Hcancel.
    destruct (existsb spec.lgtm_line (spec.body_lines body)) eqn:Hyes;
      [ | reflexivity ].
    apply existsb_exists in Hyes as (l & Hin & Hl).
    rewrite forallb_forall in Hall. specialize (Hall l Hin).
    rewrite (lgtm_line_slash_line l Hl) in Hall. cbn [negb orb] in Hall.
    rewrite (cancel_line_not_lgtm_line l Hall) in Hl. discriminate. }
  split; exact Hwant.
Qed.

Lemma cancel_only_body_cancels_witness :
  lgtm.commentWantLGTM
    ("not ready: /lgtm was too early" ++ fake.nl ++ "/LGTM cancel ")%string
  = Some false.
Proof.
  apply (cancel_only_body_cancels
           ("not ready: /lgtm was too early" ++ fake.nl ++ "/LGTM cancel ")%string);
    reflexivity.
Defined.

(** ** On a service that honours the label calls *)

(** [handle] on such a service, for a user who passes the assignment:
    the run succeeds and leaves the label as wanted; when the label is
    already as wanted there is no mutation and the labels stay. *)
Lemma handle_on_store F wantLGTM author issueAuthor repo assignees number
    body htmlURL W (client : githubClient W) labelsOf w :
  let org := Login (Owner repo) in
  let repoName := Name repo in
  let h := lgtm.handle F wantLGTM author issueAuthor repo assignees number
             body htmlURL in
  obs.LabelStore client labelsOf org repoName number ->
  In author (map Login assignees) \/
  (exists w1,
      client (AssignIssue org repoName number [author]) w = (None, w1)) ->
  returned client w h = None /\
  spec.hasLabel (labelsOf (snd (run client w h)), None) = wantLGTM /\
  (spec.hasLabel (labelsOf w, None) = wantLGTM ->
   calls isAddLabel (trace client w h) = 0 /\
   calls isRemoveLabel (trace client w h) = 0 /\
   labelsOf (snd (run client w h)) = labelsOf w).
Proof.
  intros org repoName h [Hquery Hadd Hremove Hassign] Hpass.
  unfold h, lgtm.handle, trace, returned. fold org repoName.
  set (mutate := bind (gc (GetIssueLabels org repoName number)) _).
  assert (Hmutate : forall w0,
    exists tr w',
      run client w0 mutate = (tr, None, w') /\
      spec.hasLabel (labelsOf w', None) = wantLGTM /\
      (spec.hasLabel (labelsOf w0, None) = wantLGTM ->
       calls isAddLabel tr = 0 /\ calls isRemoveLabel tr = 0 /\
       labelsOf w' = labelsOf w0)).
  { intros w0. unfold mutate. rewrite run_bind, run_gc, Hquery.
    cbn [fst].
    change (existsb
              (fun candidate => String.eqb (LabelName candidate) lgtm.lgtmLabel)
              (labelsOf w0)) with (spec.hasLabel (labelsOf w0, None)).
    destruct (spec.hasLabel (labelsOf w0, None)) eqn:Hhas, wantLGTM;
      cbn [andb negb run gc observe app].
    - exists [EvGetIssueLabels org repoName number (labelsOf w0, None)], w0.
      auto.
    - destruct (Hremove w0) as (w' & Hcall & Hoff).
      change lgtm.lgtmLabel with "lgtm". rewrite Hcall.
      eexists _, w'. split; [ reflexivity | split; [ exact Hoff | ] ].
      discriminate.
    - destruct (Hadd w0) as (w' & Hcall & Hon).
      change lgtm.lgtmLabel with "lgtm". rewrite Hcall.
      eexists _, w'. split; [ reflexivity | split; [ exact Hon | ] ].
      discriminate.
    - exists [EvGetIssueLabels org repoName number (labelsOf w0, None)], w0.
      auto. }
  clearbody mutate.
  destruct (existsb (fun assignee => String.eqb (Login assignee) author)
              assignees) eqn:Has; cbn [negb].
  - destruct (Hmutate w) as (tr & w' & Hrun & Hpost & Hnoop).
    match goal with
    | |- context [@run ?W' ?A' client w mutate] =>
        change (@run W' A' client w mutate) with (run client w mutate)
    end.
    rewrite Hrun. cbn [fst snd]. auto.
  - destruct Hpass as [Hin | (w1 & Hok)].
    + apply isAssignee_In in Hin. congruence.
    + rewrite run_bind, run_gc, Hok. cbn [observe app].
      destruct (Hmutate w1) as (tr & w' & Hrun & Hpost & Hnoop).
      match goal with
      | |- context [@run ?W' ?A' client w1 mutate] =>
          change (@run W' A' client w1 mutate) with (run client w1 mutate)
      end.
      rewrite Hrun. cbn [fst snd].
      pose proof (Hassign w [author]) as Hkeep. rewrite Hok in Hkeep.
      cbn [snd] in Hkeep. rewrite <- Hkeep.
      split; [ reflexivity | split; [ exact Hpost | ] ].
      intros Hsame. destruct (Hnoop Hsame) as (Ha & Hr & Hl).
      unfold calls in *. cbn [filter isAddLabel isRemoveLabel]. auto.
Qed.

(** X11: on a service that honours the label calls, a run of [handle] for
    a user who is an assignee, or whose assignment succeeds, returns nil
    and leaves the issue with the label exactly when wantLGTM is true,
    whatever the labels were before. *)
Theorem handle_establishes_intent :
  forall (F : string -> string -> string -> string -> string)
         (wantLGTM : bool) (pr : lgtm_struct.state)
         (W : Type) (client : githubClient W) (labelsOf : W -> list Label)
         (w : W) h,
    let org := Login (Owner (lgtm_struct.repo pr)) in
    let repoName := Name (lgtm_struct.repo pr) in
    let number := lgtm_struct.number pr in
    let author := lgtm_struct.author pr in
    obs.LabelStore client labelsOf org repoName number ->
    In author (map Login (lgtm_struct.assignees pr)) \/
    (exists w1,
        client (AssignIssue org repoName number [author]) w = (None, w1)) ->
    In h (both.handle F wantLGTM pr) ->
    returned client w h = None /\
    spec.hasLabel (labelsOf (snd (run client w h)), None) = wantLGTM.
Proof.
  intros F wantLGTM pr W client labelsOf w h org repoName number author
         Hstore Hpass Hin.
  pattern h. apply (fun HP => both_handle_ind F wantLGTM pr _ HP h Hin).
  destruct (handle_on_store F wantLGTM _ (lgtm_struct.issueAuthor pr) _ _ _
              (lgtm_struct.body pr) (lgtm_struct.htmlURL pr)
              W client labelsOf w Hstore Hpass) as (Hres & Hpost & _).
  split; assumption.
Qed.

Lemma labelsOnly_store org repoName number :
  obs.LabelStore obs.labelsOnly (fun w => w) org repoName number.
Proof.
  constructor.
  - reflexivity.
  - intros w. eexists. split; reflexivity.
  - intros w. eexists. split; [ reflexivity | ].
    unfold spec.hasLabel. cbn [fst].
    induction w as [ | l w IH]; [ reflexivity | ].
    cbn [filter]. destruct (String.eqb (LabelName l) "lgtm") eqn:Hl;
      cbn [negb existsb]; [ exact IH | now rewrite Hl, IH ].
  - reflexivity.
Qed.

Lemma handle_establishes_intent_witness :
  spec.hasLabel
    (snd (run obs.labelsOnly
            [{| LabelName := "lgtm" |}; {| LabelName := "size/XS" |}]
            (lgtm.handle fake.formatResponse false "alice" "alice"
               fake.kubernetes [fake.bob] 5%Z "/lgtm cancel"
               "https://github.com/kubernetes/test-infra/pull/5#c1")), None)
  = false.
Proof.
  apply (handle_establishes_intent fake.formatResponse false
           (fake.request fake.alice "/lgtm cancel")
           (list Label) obs.labelsOnly (fun w => w)
           [{| LabelName := "lgtm" |}; {| LabelName := "size/XS" |}]
           (lgtm.handle fake.formatResponse false "alice" "alice"
              fake.kubernetes [fake.bob] 5%Z "/lgtm cancel"
              "https://github.com/kubernetes/test-infra/pull/5#c1")).
  - apply labelsOnly_store.
  - right. eexists. reflexivity.
  - simpl. left. reflexivity.
Defined.

(** X12: on such a service the same request made twice changes nothing the
    second time: after a first run of [handle], a second run (for a user
    who passes the assignment again) makes no AddLabel and no RemoveLabel
    call, returns nil and leaves the labels as the first run left them. *)
Theorem repeated_request_is_noop :
  forall (F : string -> string -> string -> string -> string)
         (wantLGTM : bool) (pr : lgtm_struct.state)
         (W : Type) (client : githubClient W) (labelsOf : W -> list Label)
         (w : W) h1 h2,
    let org := Login (Owner (lgtm_struct.repo pr)) in
    let repoName := Name (lgtm_struct.repo pr) in
    let number := lgtm_struct.number pr in
    let author := lgtm_struct.author pr in
    let passes (w0 : W) :=
      In author (map Login (lgtm_struct.assignees pr)) \/
      (exists w1,
          client (AssignIssue org repoName number [author]) w0 = (None, w1)) in
    obs.LabelStore client labelsOf org repoName number ->
    In h1 (both.handle F wantLGTM pr) ->
    In h2 (both.handle F wantLGTM pr) ->
    passes w ->
    let w' := snd (run client w h1) in
    passes w' ->
    calls isAddLabel (trace client w' h2) = 0 /\
    calls isRemoveLabel (trace client w' h2) = 0 /\
    returned client w' h2 = None /\
    labelsOf (snd (run client w' h2)) = labelsOf w'.
Proof.
  intros F wantLGTM pr W client labelsOf w h1 h2 org repoName number author
         passes Hstore Hin1 Hin2 Hpass.
  revert Hin2. pattern h1.
  apply (fun HP => both_handle_ind F wantLGTM pr _ HP h1 Hin1).
  intros Hin2 w' Hpass'. pattern h2.
  apply (fun HP => both_handle_ind F wantLGTM pr _ HP h2 Hin2).
  destruct (handle_on_store F wantLGTM _ (lgtm_struct.issueAuthor pr) _ _ _
              (lgtm_struct.body pr) (lgtm_struct.htmlURL pr)
              W client labelsOf w Hstore Hpass) as (_ & Hpost & _).
  destruct (handle_on_store F wantLGTM _ (lgtm_struct.issueAuthor pr) _ _ _
              (lgtm_struct.body pr) (lgtm_struct.htmlURL pr)
              W client labelsOf w' Hstore Hpass') as (Hres & _ & Hnoop).
  destruct (Hnoop Hpost) as (Ha & Hr & Hl). auto.
Qed.

Lemma repeated_request_is_noop_witness :
  calls isAddLabel
    (trace obs.labelsOnly
       (snd (run obs.labelsOnly []
               (lgtm.handle fake.formatResponse true "bob" "alice"
                  fake.kubernetes [fake.bob] 5%Z "/lgtm"
                  "https://github.com/kubernetes/test-infra/pull/5#c1")))
       (lgtm_struct.handle fake.formatResponse true
          (fake.request fake.bob "/lgtm"))) = 0.
Proof.
  apply (repeated_request_is_noop fake.formatResponse true
           (fake.request fake.bob "/lgtm")
           (list Label) obs.labelsOnly (fun w => w) []
           (lgtm.handle fake.formatResponse true "bob" "alice"
              fake.kubernetes [fake.bob] 5%Z "/lgtm"
              "https://github.com/kubernetes/test-infra/pull/5#c1")
           (lgtm_struct.handle fake.formatResponse true
              (fake.request fake.bob "/lgtm"))).
  - apply labelsOnly_store.
  - simpl. left. reflexivity.
  - simpl. right. left. reflexivity.
  - left. simpl. left. reflexivity.
  - left. simpl. left. reflexivity.
Defined.

(** X13: end to end, on a service that honours the label calls: a new
    comment on an open pull request whose intent is wantLGTM (and, for
    wantLGTM = true, whose author is not the author of the pull request),
    by a user who is an assignee or whose assignment succeeds, makes the
    comment handler return nil and leaves the label on the issue exactly
    when wantLGTM is true. *)
Theorem comment_command_takes_effect :
  forall (F : string -> string -> string -> string -> string)
         (e : GenericCommentEvent) (wantLGTM : bool)
         (W : Type) (client : githubClient W) (labelsOf : W -> list Label)
         (w : W) h,
    let org := Login (Owner (EventRepo e)) in
    let repoName := Name (EventRepo e) in
    let user := Login (EventUser e) in
    IsPR e = true -> IssueState e = "open" ->
    Action e = GenericCommentActionCreated ->
    lgtm.commentWantLGTM (Body e) = Some wantLGTM ->
    (wantLGTM = true -> user <> Login (IssueAuthor e)) ->
    obs.LabelStore client labelsOf org repoName (Number e) ->
    In user (map Login (Assignees e)) \/
    (exists w1,
        client (AssignIssue org repoName (Number e) [user]) w = (None, w1)) ->
    In h (both.handleGenericComment F e) ->
    returned client w h = None /\
    spec.hasLabel (labelsOf (snd (run client w h)), None) = wantLGTM.
Proof.
  intros F e wantLGTM W client labelsOf w h org repoName user
         Hpr Hopen Hcreated Hwant Hother Hstore Hpass Hin.
  assert (Hguard :
    String.eqb (Login (EventUser e)) (Login (IssueAuthor e)) && wantLGTM
    = false).
  { destruct wantLGTM; [ | apply andb_false_r ].
    rewrite andb_true_r. apply String.eqb_neq. now apply Hother. }
  positional;
    rewrite (handleGenericComment_by_intent F e Hpr Hopen Hcreated),
            Hwant, Hguard;
    destruct (handle_on_store F wantLGTM _ (Login (IssueAuthor e)) _ _ _
                (Body e) (HTMLURL e) W client labelsOf w Hstore Hpass)
      as (Hres & Hpost & _);
    split; assumption.
Qed.

Lemma comment_command_takes_effect_witness :
  spec.hasLabel
    (snd (run obs.labelsOnly []
            (lgtm.handleGenericComment fake.formatResponse
               (fake.comment fake.bob
                  ("looks fine" ++ fake.nl ++ "/lgtm")%string))), None)
  = true.
Proof.
  apply (comment_command_takes_effect fake.formatResponse
           (fake.comment fake.bob ("looks fine" ++ fake.nl ++ "/lgtm")%string)
           true (list Label) obs.labelsOnly (fun w => w) []
           (lgtm.handleGenericComment fake.formatResponse
              (fake.comment fake.bob
                 ("looks fine" ++ fake.nl ++ "/lgtm")%string))).
  - reflexivity.
  - reflexivity.
  - reflexivity.
  - reflexivity.
  - intros _. simpl. discriminate.
  - apply labelsOnly_store.
  - left. simpl. left. reflexivity.
  - simpl. left. reflexivity.
Defined.

(** X14: end to end for reviews, on a service that honours the label
    calls: a review with state "approve" (wantLGTM = true) or
    "changes_requested" (wantLGTM = false), by a user who is an assignee or
    whose assignment succeeds, makes the review handler return nil and
    leaves the label on the issue exactly when wantLGTM is true. *)
Theorem review_takes_effect :
  forall (F : string -> string -> string -> string -> string)
         (e : ReviewEvent) (wantLGTM : bool)
         (W : Type) (client : githubClient W) (labelsOf : W -> list Label)
         (w : W) h,
    let org := Login (Owner (RevRepo e)) in
    let repoName := Name (RevRepo e) in
    let number := PRNumber (RevPullRequest e) in
    let user := Login (ReviewUser (RevReview e)) in
    ReviewState (RevReview e)
      = (if wantLGTM then "approve" else "changes_requested") ->
    obs.LabelStore client labelsOf org repoName number ->
    In user (map Login (PRAssignees (RevPullRequest e))) \/
    (exists w1,
        client (AssignIssue org repoName number [user]) w = (None, w1)) ->
    In h (both.handlePullRequestReview F e) ->
    returned client w h = None /\
    spec.hasLabel (labelsOf (snd (run client w h)), None) = wantLGTM.
Proof.
  intros F e wantLGTM W client labelsOf w h org repoName number user
         Hstate Hstore Hpass Hin.
  assert (Hh : lgtm.handlePullRequestReview F e =
               lgtm.handle F wantLGTM (Login (ReviewUser (RevReview e)))
                 (Login (PRUser (RevPullRequest e))) (RevRepo e)
                 (PRAssignees (RevPullRequest e))
                 (PRNumber (RevPullRequest e))
                 (ReviewBody (RevReview e)) (ReviewHTMLURL (RevReview e))).
  { unfold lgtm.handlePullRequestReview, lgtm.reviewWantLGTM.
    rewrite Hstate. now destruct wantLGTM. }
  positional; rewrite Hh;
    destruct (handle_on_store F wantLGTM _
                (Login (PRUser (RevPullRequest e))) _ _ _
                (ReviewBody (RevReview e)) (ReviewHTMLURL (RevReview e))
                W client labelsOf w Hstore Hpass)
      as (Hres & Hpost & _);
    split; assumption.
Qed.

Lemma review_takes_effect_witness :
  spec.hasLabel
    (snd (run obs.labelsOnly [{| LabelName := "lgtm" |}]
            (lgtm_struct.handlePullRequestReview fake.formatResponse
               (fake.review fake.bob "changes_requested"))), None)
  = false.
Proof.
  apply (review_takes_effect fake.formatResponse
           (fake.review fake.bob "changes_requested") false
           (list Label) obs.labelsOnly (fun w => w)
           [{| LabelName := "lgtm" |}]
           (lgtm_struct.handlePullRequestReview fake.formatResponse
              (fake.review fake.bob "changes_requested"))).
  - reflexivity.
  - apply labelsOnly_store.
  - left. simpl. left. reflexivity.
  - simpl. right. left. reflexivity.
Defined.
